(** * repeat_action: the loop execution engine

    A shallow embedding of
    [packages/playwright/src/mcp/browser/tools/customTools/actions/repeatAction.ts].

    The tool repeats one user action (click, hover, fill, press) under one of
    three loop disciplines ([for], [while], [do-while]).  The handler is
    embedded as a computation in a small state-and-exception monad:

    - the state holds the two mutable locals of [handle] ([iteration] and
      [evidence]), the world the host lives in, and a log of every call the
      handler makes into the host, with its outcome; statements such as
      "the interaction method is never called" are statements about the log;
    - the browser tab, its locators, the clock, the timer and the timeout
      constant are an abstract [Host]: each call takes the world to a new
      world and returns or throws;
    - the three JavaScript loops are recursive functions on a fuel argument;
      [handle_terminates] shows how much fuel any invocation needs;
    - numbers are integers: the counts the handler compares and prints are
      whole ([iterations], [maxIterations], the counter, milliseconds).

    The data model comes first, then the handler, then the lemmas on the
    monad, the log and the loops, then the properties of the tool, and last
    their instances on two small pages. *)

From Stdlib Require Import ZArith List String Ascii Bool Lia DecimalString.
Import ListNotations.
Open Scope Z_scope.
Open Scope string_scope.

(* ------------------------------------------------------------------ *)
(** ** Data model (the parsed [rawParams]) *)

(** A thrown JavaScript value: [new Error(message)]. *)
Inductive Exn : Type :=
| Error (message : string).

(** [action]: the fields the handler reads.  [action.value] is optional;
    [None] stands for [undefined]. *)
Record ActionSpec : Type := {
  action_ref     : string;
  action_element : string;
  action_type    : string;
  action_value   : option string
}.

Record Assertion : Type := {
  assertionType : string
}.

(** [loop.until]. *)
Record StopCondition : Type := {
  until_element : string;
  until_ref     : string;
  assertion     : Assertion;
  negate        : bool
}.

(** [loop].  [iterations] is [None] when [typeof loop.iterations] is not
    ['number']; [until] is [None] when [loop.until] is falsy.  The count is
    an integer, as the data model has it. *)
Record LoopSpec : Type := {
  loop_type  : string;
  iterations : option Z;
  until      : option StopCondition
}.

Record Limits : Type := {
  maxIterations : option Z
}.

Record Params : Type := {
  loop   : LoopSpec;
  action : ActionSpec;
  limits : option Limits
}.

(** One element of the [evidence] array. *)
Record IterationRecord : Type := {
  ev_iteration : Z;
  ev_action    : ActionSpec;
  ev_message   : string
}.

Record Check : Type := {
  property : string;
  operator : string;
  expected : string;
  actual   : Z;
  result   : string
}.

Record Summary : Type := {
  total    : Z;
  passed   : Z;
  failed   : Z;
  status   : string;
  evidence_of : list IterationRecord
}.

(** [toolResponse]. *)
Record Report : Type := {
  report_action : ActionSpec;
  report_loop   : LoopSpec;
  summary       : Summary;
  checks        : list Check
}.

(* ------------------------------------------------------------------ *)
(** ** The host: tab, locators, clock and timer *)

(** What the handler calls and does not define.  Each collaborator call
    takes the world to a new world and either returns or throws. *)
Record Host : Type := {
  World   : Type;
  Locator : Type;
  (** [tab.refLocator({ ref, element })] *)
  refLocator : string -> string -> World -> (Exn + Locator) * World;
  click      : Locator -> World -> (Exn + unit) * World;
  hover      : Locator -> World -> (Exn + unit) * World;
  fill       : Locator -> string -> World -> (Exn + unit) * World;
  press      : Locator -> string -> World -> (Exn + unit) * World;
  isVisible  : Locator -> World -> (Exn + bool) * World;
  isHidden   : Locator -> World -> (Exn + bool) * World;
  isEnabled  : Locator -> World -> (Exn + bool) * World;
  isDisabled : Locator -> World -> (Exn + bool) * World;
  (** [Date.now()] *)
  Date_now   : World -> Z;
  (** [await sleep(ms)] *)
  sleep      : Z -> World -> World;
  (** the constant imported from [../helpers/utils] *)
  ELEMENT_ATTACHED_TIMEOUT : Z
}.

(** The calls that are logged. *)
Inductive Call : Type :=
| CRefLocator (ref element : string)
| CClick
| CHover
| CFill (value : string)
| CPress (value : string)
| CIsVisible
| CIsHidden
| CIsEnabled
| CIsDisabled
| CSleep (ms : Z).

(** A logged call with its outcome: [None] when it returned, [Some e] when
    it threw [e]. *)
Record Event : Type := Ev {
  ev_call   : Call;
  ev_thrown : option Exn
}.

(** The interaction methods of a locator. *)
Definition is_interaction (c : Call) : bool :=
  match c with
  | CClick | CHover | CFill _ | CPress _ => true
  | _ => false
  end.

Definition returned (e : Event) : bool :=
  match ev_thrown e with
  | None => true
  | Some _ => false
  end.

(** An interaction method was called (whatever came of it). *)
Definition interaction_called (e : Event) : bool := is_interaction (ev_call e).

(** An interaction method was called and returned: a completed action. *)
Definition action_done (e : Event) : bool :=
  is_interaction (ev_call e) && returned e.

Definition count_if {A} (f : A -> bool) (l : list A) : nat :=
  List.length (filter f l).

(* ------------------------------------------------------------------ *)
(** ** Strings *)

(** The double quote, for messages that quote a field name. *)
Definition dq : string := String (ascii_of_nat 34) EmptyString.

(** [`${n}`] for an integer [n], in decimal digits.  This is what the
    template literal gives for integers of magnitude below [10 ^ 21]; from
    there on JavaScript prints an exponent, so the statements that compare
    a printed number with this function keep the number below that bound
    (the counter and the record numbers are below it in every run). *)
Definition string_of_number (n : Z) : string :=
  NilZero.string_of_int (Z.to_int n).

(** ['repeat_action: "iterations" is required when loop.type is "for"'] *)
Definition missing_iterations : string :=
  "repeat_action: " ++ dq ++ "iterations" ++ dq
    ++ " is required when loop.type is " ++ dq ++ "for" ++ dq.

(** [`repeat_action: "until" condition is required when loop.type is "${type}"`] *)
Definition missing_until (type : string) : string :=
  "repeat_action: " ++ dq ++ "until" ++ dq
    ++ " condition is required when loop.type is " ++ dq ++ type ++ dq.

(** The object pushed on [evidence]:
    [{ iteration, action, message: `Performed <what> iteration ${iteration}` }]. *)
Definition iteration_record (what : string) (a : ActionSpec) (i : Z) : IterationRecord :=
  {| ev_iteration := i; ev_action := a;
     ev_message := "Performed " ++ what ++ " iteration " ++ string_of_number i |}.

(** How a computation ends: it returns, it throws, or the fuel of the
    embedding runs out before it has done either. *)
Inductive Result (A : Type) : Type :=
| Ok (a : A)
| Throw (e : Exn)
| OutOfFuel.
Arguments Ok {A} a.
Arguments Throw {A} e.
Arguments OutOfFuel {A}.

(* ------------------------------------------------------------------ *)
(** ** A small page to run the handler on *)

Module Page.

(** The world is the clock and the number of interactions so far.  The
    target becomes visible once [visibleAfter] interactions have been made;
    an interaction is rejected once [breaksAfter] of them have been made;
    the reference ["gone"] cannot be located. *)
Definition page (visibleAfter : Z) (breaksAfter : option Z) (timeout : Z) : Host :=
  let interact (w : Z * Z) : (Exn + unit) * (Z * Z) :=
    match breaksAfter with
    | Some b =>
        if (b <=? snd w)%Z then (inl (Error "ActionError"), w)
        else (inr tt, (fst w, snd w + 1))
    | None => (inr tt, (fst w, snd w + 1))
    end in
  let visible (w : Z * Z) : bool := (visibleAfter <=? snd w)%Z in
  {| World := Z * Z;
     Locator := string;
     refLocator := fun ref _ w =>
       if ref =? "gone" then (inl (Error "NotFoundError"), w) else (inr ref, w);
     click := fun _ w => interact w;
     hover := fun _ w => interact w;
     fill := fun _ _ w => interact w;
     press := fun _ _ w => interact w;
     isVisible := fun _ w => (inr (visible w), w);
     isHidden := fun _ w => (inr (negb (visible w)), w);
     isEnabled := fun _ w => (inr true, w);
     isDisabled := fun _ w => (inr false, w);
     Date_now := fun w => fst w;
     sleep := fun ms w => (fst w + ms, snd w);
     ELEMENT_ATTACHED_TIMEOUT := timeout |}.

(** A page on which time stands still: every call returns, the target is
    [visible] or not once and for all, and the clock reads 0. *)
Definition frozen (visible : bool) (timeout : Z) : Host :=
  {| World := Z;
     Locator := string;
     refLocator := fun ref _ w => (inr ref, w);
     click := fun _ w => (inr tt, w + 1);
     hover := fun _ w => (inr tt, w + 1);
     fill := fun _ _ w => (inr tt, w + 1);
     press := fun _ _ w => (inr tt, w + 1);
     isVisible := fun _ w => (inr visible, w);
     isHidden := fun _ w => (inr (negb visible), w);
     isEnabled := fun _ w => (inr true, w);
     isDisabled := fun _ w => (inr false, w);
     Date_now := fun _ => 0;
     sleep := fun _ w => w;
     ELEMENT_ATTACHED_TIMEOUT := timeout |}.

Definition button (type : string) (value : option string) : ActionSpec :=
  {| action_ref := "e1"; action_element := "Load more";
     action_type := type; action_value := value |}.

Definition banner : StopCondition :=
  {| until_element := "Done banner"; until_ref := "e2";
     assertion := {| assertionType := "toBeVisible" |}; negate := false |}.

Definition for_params (n : option Z) (a : ActionSpec) : Params :=
  {| loop := {| loop_type := "for"; iterations := n; until := None |};
     action := a; limits := None |}.

Definition until_params (type : string) (u : option StopCondition)
    (a : ActionSpec) (m : option Z) : Params :=
  {| loop := {| loop_type := type; iterations := None; until := u |};
     action := a;
     limits := match m with
               | Some _ => Some {| maxIterations := m |}
               | None => None
               end |}.

End Page.

Section Engine.

Variable tab : Host.

(* ------------------------------------------------------------------ *)
(** ** The monad of the handler *)

(** The mutable locals of [handle] ([iteration], [evidence]), the world and
    the log of calls. *)
Record State : Type := {
  world     : World tab;
  trace     : list Event;
  iteration : Z;
  evidence  : list IterationRecord
}.

Definition M (A : Type) : Type := State -> Result A * State.

Definition ret {A} (a : A) : M A := fun s => (Ok a, s).

Definition bind {A B} (m : M A) (k : A -> M B) : M B :=
  fun s =>
    match m s with
    | (Ok a, s') => k a s'
    | (Throw e, s') => (Throw e, s')
    | (OutOfFuel, s') => (OutOfFuel, s')
    end.

Definition throw {A} (e : Exn) : M A := fun s => (Throw e, s).

Definition diverge {A} : M A := fun s => (OutOfFuel, s).

Notation "x <- m ;; k" := (bind m (fun x => k))
  (at level 61, m at next level, right associativity).
Notation "m ;; k" := (bind m (fun _ => k))
  (at level 61, right associativity).

Definition log (c : Call) (t : option Exn) (s : State) (w : World tab) : State :=
  {| world := w; trace := (trace s ++ [Ev c t])%list;
     iteration := iteration s; evidence := evidence s |}.

(** A call into the host: the world moves, the call is logged, and a
    rejection becomes a throw. *)
Definition host_call {A} (c : Call)
    (f : World tab -> (Exn + A) * World tab) : M A :=
  fun s =>
    match f (world s) with
    | (inr a, w) => (Ok a, log c None s w)
    | (inl e, w) => (Throw e, log c (Some e) s w)
    end.

Definition await_sleep (ms : Z) : M unit :=
  fun s => (Ok tt, log (CSleep ms) None s (sleep tab ms (world s))).

Definition now : M Z := fun s => (Ok (Date_now tab (world s)), s).

Definition get_iteration : M Z := fun s => (Ok (iteration s), s).

(** [iteration++] *)
Definition incr_iteration : M unit :=
  fun s => (Ok tt, {| world := world s; trace := trace s;
                      iteration := iteration s + 1; evidence := evidence s |}).

(** [evidence.push(r)] *)
Definition push_evidence (r : IterationRecord) : M unit :=
  fun s => (Ok tt, {| world := world s; trace := trace s;
                      iteration := iteration s; evidence := (evidence s ++ [r])%list |}).

Definition get_evidence : M (list IterationRecord) :=
  fun s => (Ok (evidence s), s).

(* ------------------------------------------------------------------ *)
(** ** The handler *)

Section Handle.

Variable params : Params.

(** [runAction] *)
Definition runAction : M unit :=
  let a := action params in
  locator <- host_call (CRefLocator (action_ref a) (action_element a))
               (refLocator tab (action_ref a) (action_element a)) ;;
  if action_type a =? "click" then
    host_call CClick (click tab locator)
  else if action_type a =? "hover" then
    host_call CHover (hover tab locator)
  else if action_type a =? "fill" then
    match action_value a with
    | None => throw (Error "Fill action requires a value")
    | Some v => host_call (CFill v) (fill tab locator v)
    end
  else if action_type a =? "press" then
    match action_value a with
    | None => throw (Error "Press action requires a value")
    | Some v => host_call (CPress v) (press tab locator v)
    end
  else
    throw (Error ("Unsupported action type: " ++ action_type a)).

(** [evaluateCondition] *)
Definition evaluateCondition : M bool :=
  match until (loop params) with
  | None => ret false
  | Some u =>
      locator <- host_call (CRefLocator (until_ref u) (until_element u))
                   (refLocator tab (until_ref u) (until_element u)) ;;
      let t := assertionType (assertion u) in
      result <-
        (if t =? "toBeVisible" then host_call CIsVisible (isVisible tab locator)
         else if t =? "toBeHidden" then host_call CIsHidden (isHidden tab locator)
         else if t =? "toBeEnabled" then host_call CIsEnabled (isEnabled tab locator)
         else if t =? "toBeDisabled" then host_call CIsDisabled (isDisabled tab locator)
         else throw (Error ("Unsupported assertion type: " ++ t))) ;;
      ret (if negate u then negb result else result)
  end.

(** [iteration++; evidence.push({ iteration, action, message })] *)
Definition record_iteration (what : string) : M unit :=
  incr_iteration ;;
  i <- get_iteration ;;
  push_evidence (iteration_record what (action params) i).

(** How the body of a cycle leaves: by [break], or by falling through to
    the loop test. *)
Inductive Flow : Type := Break | Continue.

Variable maxIterations_ : Z.
Variable startTime : Z.

(** [Date.now() - startTime > ELEMENT_ATTACHED_TIMEOUT] *)
Definition timed_out : M bool :=
  t <- now ;;
  ret (t - startTime >? ELEMENT_ATTACHED_TIMEOUT tab)%Z.

Definition forBody : M unit :=
  runAction ;;
  record_iteration "for-loop" ;;
  await_sleep 300.

Definition whileBody : M Flow :=
  conditionMet <- evaluateCondition ;;
  if conditionMet then ret Break
  else
    runAction ;;
    record_iteration "while-loop" ;;
    await_sleep 100 ;;
    late <- timed_out ;;
    if late then ret Break else ret Continue.

Definition doWhileBody : M Flow :=
  runAction ;;
  record_iteration "do-while" ;;
  await_sleep 100 ;;
  conditionMet <- evaluateCondition ;;
  if conditionMet then ret Break
  else
    i <- get_iteration ;;
    if (i >=? maxIterations_)%Z then ret Break
    else
      late <- timed_out ;;
      if late then ret Break else ret Continue.

(** [while (iteration < n) { forBody }] *)
Fixpoint forLoop (fuel : nat) (n : Z) : M unit :=
  match fuel with
  | O => diverge
  | S fuel' =>
      i <- get_iteration ;;
      if (i <? n)%Z then forBody ;; forLoop fuel' n else ret tt
  end.

(** [while (iteration < maxIterations) { whileBody }] *)
Fixpoint whileLoop (fuel : nat) : M unit :=
  match fuel with
  | O => diverge
  | S fuel' =>
      i <- get_iteration ;;
      if (i <? maxIterations_)%Z then
        flow <- whileBody ;;
        match flow with
        | Break => ret tt
        | Continue => whileLoop fuel'
        end
      else ret tt
  end.

(** [do { doWhileBody } while (true)] *)
Fixpoint doWhileLoop (fuel : nat) : M unit :=
  match fuel with
  | O => diverge
  | S fuel' =>
      flow <- doWhileBody ;;
      match flow with
      | Break => ret tt
      | Continue => doWhileLoop fuel'
      end
  end.

(** [loopStart] *)
Definition loopStart (fuel : nat) : M unit :=
  let l := loop params in
  if loop_type l =? "for" then
    match iterations l with
    | Some n => forLoop fuel n
    | None => ret tt   (* [iteration < undefined] is false *)
    end
  else if loop_type l =? "while" then whileLoop fuel
  else if loop_type l =? "do-while" then doWhileLoop fuel
  else ret tt.

End Handle.

(** Modelled from the spec: [tab.waitForCompletion], which is not in the
    file.  The loop runs inside this scope; it runs the callback to its end
    and lets its outcome through, a thrown error included. *)
Definition waitForCompletion (callback : M unit) : M unit := callback.

(** [limits?.maxIterations ?? 20] *)
Definition maxIterations_of (p : Params) : Z :=
  match limits p with
  | Some l =>
      match maxIterations l with
      | Some m => m
      | None => 20
      end
  | None => 20
  end.

(** The two checks made before [runAction] is even defined. *)
Definition validate (p : Params) : M unit :=
  let l := loop p in
  (if loop_type l =? "for" then
     match iterations l with
     | None => throw (Error missing_iterations)
     | Some _ => ret tt
     end
   else ret tt) ;;
  if (loop_type l =? "while") || (loop_type l =? "do-while") then
    match until l with
    | None => throw (Error (missing_until (loop_type l)))
    | Some _ => ret tt
    end
  else ret tt.

Definition verdict (i : Z) : string := if (i >? 0)%Z then "pass" else "fail".

(** [toolResponse] *)
Definition toolResponse (p : Params) (i : Z) (ev : list IterationRecord) : Report :=
  {| report_action := action p;
     report_loop := loop p;
     summary := {| total := i;
                   passed := if (i >? 0)%Z then 1 else 0;
                   failed := if (i >? 0)%Z then 0 else 1;
                   status := verdict i;
                   evidence_of := ev |};
     checks := [ {| property := "action-execution";
                    operator := loop_type (loop p);
                    expected :=
                      if loop_type (loop p) =? "for" then
                        match iterations (loop p) with
                        | Some n => string_of_number n ++ " iterations"
                        | None => "undefined iterations"
                        end
                      else "condition met or maxIterations reached";
                    actual := i;
                    result := verdict i |} ] |}.

(** The body of [handle] once [rawParams] is parsed. *)
Definition handle_body (fuel : nat) (p : Params) : M Report :=
  let maxIterations := maxIterations_of p in
  startTime <- now ;;
  validate p ;;
  waitForCompletion (loopStart p maxIterations startTime fuel) ;;
  i <- get_iteration ;;
  ev <- get_evidence ;;
  ret (toolResponse p i ev).

(** The locals as [handle] declares them: [evidence = []], [iteration = 0];
    nothing has been called yet. *)
Definition initial (w : World tab) : State :=
  {| world := w; trace := []; iteration := 0; evidence := [] |}.

(** [handle]: one invocation, started in world [w]. *)
Definition handle (fuel : nat) (p : Params) (w : World tab) : Result Report * State :=
  handle_body fuel p (initial w).


(* ------------------------------------------------------------------ *)
(** ** What the statements are written with *)

(** The word each discipline puts in its messages. *)
Definition what_of (p : Params) : string :=
  if loop_type (loop p) =? "for" then "for-loop"
  else if loop_type (loop p) =? "while" then "while-loop"
  else "do-while".

(** The records of iterations [1..n]. *)
Definition numbered (what : string) (a : ActionSpec) (n : nat) : list IterationRecord :=
  map (fun i => iteration_record what a (Z.of_nat i)) (seq 1 n).

(** Every logged call returned. *)
Definition clean (l : list Event) : Prop :=
  Forall (fun ev => returned ev = true) l.

(** No logged call is an interaction. *)
Definition untouched (l : list Event) : Prop :=
  Forall (fun ev => interaction_called ev = false) l.

(** A log that ends where [e] was thrown: every call before returned, and
    the last one, if the throw came out of a call, threw [e]. *)
Definition failed_with (e : Exn) (l : list Event) : Prop :=
  exists pre, clean pre /\ (l = pre \/ exists c, l = (pre ++ [Ev c (Some e)])%list).

(** The state between two cycles: the counter, the evidence and the
    completed actions of the log agree. *)
Record Inv (what : string) (a : ActionSpec) (s : State) : Prop := {
  inv_iteration : iteration s = Z.of_nat (List.length (evidence s));
  inv_evidence  : evidence s = numbered what a (List.length (evidence s));
  inv_done      : count_if action_done (trace s) = List.length (evidence s)
}.

(** What holds of the outcome of a loop, or of one cycle. *)
Definition Post (what : string) (a : ActionSpec) {A} (r : Result A) (s : State) : Prop :=
  Inv what a s /\
  match r with
  | Throw e => failed_with e (trace s)
  | _ => clean (trace s)
  end.

(** From [s] to [s'] the locals are kept and the calls [d] are logged. *)
Definition emits (s s' : State) (d : list Event) : Prop :=
  iteration s' = iteration s /\ evidence s' = evidence s /\
  trace s' = (trace s ++ d)%list.

(** The computation returns in every state. *)
Definition always_succeeds {A} (m : M A) : Prop :=
  forall s, exists a s', m s = (Ok a, s').

(** The computation returns [a] in every state. *)
Definition always_yields {A} (m : M A) (a : A) : Prop :=
  forall s, exists s', m s = (Ok a, s').

(** The clock never gets further than the timeout from where it stood in
    world [w0]. *)
Definition never_times_out (w0 : World tab) : Prop :=
  forall w, Date_now tab w - Date_now tab w0 <= ELEMENT_ATTACHED_TIMEOUT tab.

(** The state after a completed action: counter, evidence, delay. *)
Definition completed (p : Params) (what : string) (ms : Z) (s : State) : State :=
  {| world := sleep tab ms (world s);
     trace := (trace s ++ [Ev (CSleep ms) None])%list;
     iteration := iteration s + 1;
     evidence := (evidence s ++ [iteration_record what (action p) (iteration s + 1)])%list |}.

(** The states in which a cycle of the [while] loop starts, the loop having
    been entered in state [s0]: [s0] itself, and every state in which a
    cycle that was let in by the loop test falls through to the next. *)
Inductive cycle_start (p : Params) (m start : Z) (s0 : State) : State -> Prop :=
| cycle_first : cycle_start p m start s0 s0
| cycle_next s s' :
    cycle_start p m start s0 s ->
    iteration s < m ->
    whileBody p start s = (Ok Continue, s') ->
    cycle_start p m start s0 s'.

(** [Date.now() - startTime] in state [s]. *)
Definition elapsed (start : Z) (s : State) : Z :=
  Date_now tab (world s) - start.

(** What one call leaves in the log, by its outcome. *)
Definition call_shape (interaction : bool) {A} (r : Result A) (d : list Event) : Prop :=
  match r with
  | Ok _ => clean d /\ count_if action_done d = (if interaction then 1 else 0)%nat
  | Throw e => failed_with e d /\ count_if action_done d = O
  | OutOfFuel => False
  end.

(** Fuel that is enough for any run of [handle]: one unit per cycle the
    loop test can let in, and one for the test that ends the loop. *)
Definition fuel_needed (p : Params) : nat :=
  if loop_type (loop p) =? "for" then
    match iterations (loop p) with
    | Some n => S (Z.to_nat n)
    | None => 1%nat
    end
  else S (Z.to_nat (maxIterations_of p)).

(* ------------------------------------------------------------------ *)
(** ** The calls of one cycle *)

(** The interaction [runAction] calls for this action, when it calls one:
    the method named by [action.type], with [action.value] where the method
    takes one. *)
Definition interaction_call (a : ActionSpec) : option Call :=
  if action_type a =? "click" then Some CClick
  else if action_type a =? "hover" then Some CHover
  else if action_type a =? "fill" then option_map CFill (action_value a)
  else if action_type a =? "press" then option_map CPress (action_value a)
  else None.

(** The check [evaluateCondition] calls for this condition, when it calls
    one: the method named by [assertion.assertionType]. *)
Definition check_call (u : StopCondition) : option Call :=
  let t := assertionType (assertion u) in
  if t =? "toBeVisible" then Some CIsVisible
  else if t =? "toBeHidden" then Some CIsHidden
  else if t =? "toBeEnabled" then Some CIsEnabled
  else if t =? "toBeDisabled" then Some CIsDisabled
  else None.

(** What a successful [runAction] logs: the target is located, then the
    interaction is made. *)
Definition action_block (p : Params) : list Event :=
  Ev (CRefLocator (action_ref (action p)) (action_element (action p))) None
  :: match interaction_call (action p) with
     | Some c => [Ev c None]
     | None => []
     end.

(** What a successful [evaluateCondition] logs: the element of the condition
    is located, then checked. *)
Definition check_block (p : Params) : list Event :=
  match until (loop p) with
  | Some u =>
      Ev (CRefLocator (until_ref u) (until_element u)) None
      :: match check_call u with
         | Some c => [Ev c None]
         | None => []
         end
  | None => []
  end.

(** The delay after an iteration. *)
Definition pause (ms : Z) : list Event := [Ev (CSleep ms) None].

(** The calls of one full cycle, by discipline. *)
Definition for_cycle (p : Params) : list Event :=
  (action_block p ++ pause 300)%list.

Definition while_cycle (p : Params) : list Event :=
  (check_block p ++ action_block p ++ pause 100)%list.

Definition do_while_cycle (p : Params) : list Event :=
  (action_block p ++ pause 100 ++ check_block p)%list.

(** The most interactions an invocation can make: [iterations] in a [for]
    loop, [maxIterations] in a [while] loop, and [maxIterations] but no less
    than one in a [do-while] loop. *)
Definition action_budget (p : Params) : Z :=
  if loop_type (loop p) =? "for" then
    match iterations (loop p) with
    | Some n => Z.max n 0
    | None => 0
    end
  else if loop_type (loop p) =? "while" then Z.max (maxIterations_of p) 0
  else if loop_type (loop p) =? "do-while" then Z.max (maxIterations_of p) 1
  else 0.

(** The same invocation with the [negate] flag of its condition flipped. *)
Definition negated (p : Params) : Params :=
  {| loop :=
       {| loop_type := loop_type (loop p);
          iterations := iterations (loop p);
          until :=
            option_map
              (fun u => {| until_element := until_element u;
                           until_ref := until_ref u;
                           assertion := assertion u;
                           negate := negb (negate u) |})
              (until (loop p)) |};
     action := action p;
     limits := limits p |}.

(** The interactions called so far. *)
Definition called (s : State) : Z :=
  Z.of_nat (count_if interaction_called (trace s)).

(* ------------------------------------------------------------------ *)
(** ** Runs in which nothing stops the loop before its cap *)

(** The state at the end of a cycle of the [while] loop that starts in [s]:
    the condition is evaluated, the action run, the iteration recorded and
    the delay waited. *)
Definition while_cycle_end (p : Params) (s : State) : State :=
  completed p "while-loop" 100 (snd (runAction p (snd (evaluateCondition p s)))).

(** The state at the end of a cycle of the [do-while] loop that starts in
    [s]: the action is run, the iteration recorded, the delay waited and the
    condition evaluated. *)
Definition do_while_cycle_end (p : Params) (s : State) : State :=
  snd (evaluateCondition p (completed p "do-while" 100 (snd (runAction p s)))).

(** In the run of the [while] loop entered in [s0] with cap [m], up to the
    cap: the condition is evaluated and found not met, the action succeeds,
    and the clock, read after the delay, is not past the timeout (the
    reading after the last cycle the cap allows does not matter). *)
Definition unhindered_while (p : Params) (start m : Z) (s0 : State) : Prop :=
  forall k, Z.of_nat k < m ->
    let s := Nat.iter k (while_cycle_end p) s0 in
    (exists s1, evaluateCondition p s = (Ok false, s1)) /\
    (exists s2, runAction p (snd (evaluateCondition p s)) = (Ok tt, s2)) /\
    (Z.of_nat k + 1 < m ->
     elapsed start (while_cycle_end p s) <= ELEMENT_ATTACHED_TIMEOUT tab).

(** The same for the [do-while] loop, whose first cycle runs whatever the
    cap is. *)
Definition unhindered_do_while (p : Params) (start m : Z) (s0 : State) : Prop :=
  forall k, k = O \/ Z.of_nat k < m ->
    let s := Nat.iter k (do_while_cycle_end p) s0 in
    (exists s1, runAction p s = (Ok tt, s1)) /\
    (exists s2, evaluateCondition p (completed p "do-while" 100 (snd (runAction p s)))
                = (Ok false, s2)) /\
    (Z.of_nat k + 1 < m ->
     elapsed start (do_while_cycle_end p s) <= ELEMENT_ATTACHED_TIMEOUT tab).

(* ------------------------------------------------------------------ *)
(** ** Logs *)

Lemma count_if_app {A} (f : A -> bool) (l1 l2 : list A) :
  count_if f (l1 ++ l2) = (count_if f l1 + count_if f l2)%nat.
Proof. unfold count_if. now rewrite filter_app, length_app. Qed.

Lemma clean_app l1 l2 : clean l1 -> clean l2 -> clean (l1 ++ l2).
Proof. unfold clean. intros. apply Forall_app. now split. Qed.

Lemma clean_snoc l c : clean l -> clean (l ++ [Ev c None]).
Proof. intros. apply clean_app; [assumption|]. repeat constructor. Qed.

Lemma clean_failed e l : clean l -> failed_with e l.
Proof. intros H. exists l. split; [assumption | now left]. Qed.

Lemma clean_snoc_failed e l c : clean l -> failed_with e (l ++ [Ev c (Some e)]).
Proof. intros H. exists l. split; [assumption | right; now exists c]. Qed.

(** On a clean log, the interactions called are the actions completed. *)
Lemma clean_called_done l :
  clean l -> count_if interaction_called l = count_if action_done l.
Proof.
  unfold clean, count_if. induction 1 as [|ev l Hev _ IH]; [reflexivity|].
  cbn [filter]. unfold action_done at 1, interaction_called at 1.
  rewrite Hev, andb_true_r.
  destruct (is_interaction (ev_call ev)); cbn [List.length]; now rewrite IH.
Qed.

(** A thrown call in a log that failed with [e] is its last call, and threw [e]. *)
Lemma failed_with_last e l c e' :
  failed_with e l -> In (Ev c (Some e')) l ->
  e' = e /\ exists pre, clean pre /\ l = (pre ++ [Ev c (Some e')])%list.
Proof.
  intros (pre & Hpre & Hl) Hin.
  assert (Hno : ~ In (Ev c (Some e')) pre).
  { intros Hc. unfold clean in Hpre. rewrite Forall_forall in Hpre.
    specialize (Hpre _ Hc). discriminate. }
  destruct Hl as [-> | (c0 & ->)]; [contradiction|].
  apply in_app_or in Hin. destruct Hin as [Hin | [Heq | []]]; [contradiction|].
  inversion Heq; subst. split; [reflexivity|]. now exists pre.
Qed.

Lemma clean_no_throw l c e : clean l -> ~ In (Ev c (Some e)) l.
Proof.
  unfold clean. rewrite Forall_forall. intros H Hin.
  specialize (H _ Hin). discriminate.
Qed.

Lemma numbered_length what a n : List.length (numbered what a n) = n.
Proof. unfold numbered. now rewrite length_map, length_seq. Qed.

Lemma numbered_S what a n :
  numbered what a (S n)
  = (numbered what a n ++ [iteration_record what a (Z.of_nat (S n))])%list.
Proof. unfold numbered. now rewrite seq_S, map_app. Qed.

Lemma numbered_iterations what a n :
  map ev_iteration (numbered what a n) = map Z.of_nat (seq 1 n).
Proof. unfold numbered. rewrite map_map. reflexivity. Qed.

(** [records[i].iteration == i + 1] *)
Lemma numbered_nth what a n i d :
  (i < n)%nat -> ev_iteration (nth i (numbered what a n) d) = Z.of_nat i + 1.
Proof.
  intros Hi. unfold numbered.
  rewrite nth_indep with (d' := iteration_record what a (Z.of_nat 0))
    by now rewrite length_map, length_seq.
  rewrite (map_nth (fun i => iteration_record what a (Z.of_nat i))).
  rewrite seq_nth by assumption. cbn [iteration_record ev_iteration]. lia.
Qed.

Lemma untouched_not_done d : untouched d -> count_if action_done d = O.
Proof.
  unfold untouched, count_if. induction 1 as [|ev l Hev _ IH]; [reflexivity|].
  cbn [filter]. unfold action_done at 1. unfold interaction_called in Hev.
  now rewrite Hev.
Qed.

Lemma untouched_not_called d : untouched d -> count_if interaction_called d = O.
Proof.
  unfold untouched, count_if. induction 1 as [|ev l Hev _ IH]; [reflexivity|].
  cbn [filter]. now rewrite Hev.
Qed.

Lemma untouched_app l1 l2 : untouched l1 -> untouched l2 -> untouched (l1 ++ l2).
Proof. unfold untouched. intros. apply Forall_app. now split. Qed.

Lemma failed_with_app e l d : clean l -> failed_with e d -> failed_with e (l ++ d).
Proof.
  intros Hl (pre & Hpre & Hd). exists (l ++ pre)%list.
  split; [now apply clean_app|].
  destruct Hd as [-> | (c & ->)]; [now left | right; exists c; now rewrite app_assoc].
Qed.

Lemma emits_refl s : emits s s [].
Proof. unfold emits. now rewrite app_nil_r. Qed.

Lemma emits_trans s s1 s2 d1 d2 :
  emits s s1 d1 -> emits s1 s2 d2 -> emits s s2 (d1 ++ d2).
Proof.
  unfold emits. intros (Hi1 & He1 & Ht1) (Hi2 & He2 & Ht2).
  rewrite Hi2, He2, Ht2, Hi1, He1, Ht1. now rewrite app_assoc.
Qed.

(* ------------------------------------------------------------------ *)
(** ** Calls into the host *)

Lemma host_call_spec {A} c (f : World tab -> (Exn + A) * World tab) s r s' :
  host_call c f s = (r, s') ->
  (exists a, r = Ok a /\ emits s s' [Ev c None]) \/
  (exists e, r = Throw e /\ emits s s' [Ev c (Some e)]).
Proof.
  unfold host_call. destruct (f (world s)) as [[e | a] w]; intros H;
    inversion H; subst; [right; exists e | left; exists a];
    (split; [reflexivity | now unfold emits, log]).
Qed.

Lemma host_call_shape {A} c (f : World tab -> (Exn + A) * World tab) s r s' :
  host_call c f s = (r, s') ->
  exists d, emits s s' d /\ call_shape (is_interaction c) r d
            /\ (is_interaction c = false -> untouched d).
Proof.
  intros H. apply host_call_spec in H.
  destruct H as [(a & -> & H) | (e & -> & H)]; eexists; (split; [exact H|]).
  - split.
    + split; [repeat constructor|].
      unfold count_if, action_done. cbn. now destruct (is_interaction c).
    + intros Hc. repeat constructor. exact Hc.
  - split.
    + split; [apply (clean_snoc_failed e []); constructor|].
      unfold count_if, action_done. cbn. now rewrite andb_false_r.
    + intros Hc. repeat constructor. exact Hc.
Qed.

Lemma call_shape_after b {A} (r : Result A) d1 d2 :
  clean d1 -> untouched d1 -> call_shape b r d2 -> call_shape b r (d1 ++ d2).
Proof.
  intros Hc Hu. pose proof (untouched_not_done _ Hu) as H0.
  destruct r as [a | e |]; cbn; [| |trivial].
  - intros (Hc2 & Hn). split; [now apply clean_app|].
    now rewrite count_if_app, H0, Hn.
  - intros (Hf & Hn). split; [now apply failed_with_app|].
    now rewrite count_if_app, H0, Hn.
Qed.

Lemma throw_shape b {A} e s (r : Result A) s' :
  throw e s = (r, s') -> emits s s' [] /\ call_shape b r [].
Proof.
  unfold throw. intros H. inversion H; subst. split; [apply emits_refl|].
  split; [apply clean_failed; constructor | reflexivity].
Qed.


(** [runAction] keeps the locals and logs one locate and at most one
    interaction; it completes one action exactly when it returns. *)
Lemma runAction_spec p s r s' :
  runAction p s = (r, s') ->
  exists d, emits s s' d /\ call_shape true r d.
Proof.
  unfold runAction, bind.
  destruct (host_call _ _ s) as [[loc | e |] s1] eqn:Hloc;
    apply host_call_shape in Hloc; destruct Hloc as (d1 & Hd1 & Hs1 & Hu1);
    specialize (Hu1 eq_refl); cbn in Hs1.
  - assert (Hnext : forall (m : M unit),
        (forall r s', m s1 = (r, s') ->
           exists d, emits s1 s' d /\ call_shape true r d) ->
        m s1 = (r, s') -> exists d, emits s s' d /\ call_shape true r d).
    { intros m Hm Hrun. destruct (Hm _ _ Hrun) as (d2 & Hd2 & Hs2).
      exists (d1 ++ d2)%list. split; [eapply emits_trans; eassumption|].
      apply call_shape_after; tauto. }
    assert (Hcall : forall c f, is_interaction c = true ->
        forall r s', host_call (A := unit) c f s1 = (r, s') ->
           exists d, emits s1 s' d /\ call_shape true r d).
    { intros c f Hc r0 s0 Hrun. apply host_call_shape in Hrun.
      destruct Hrun as (d & Hd & Hs & _). rewrite Hc in Hs. eauto. }
    assert (Hthrow : forall e r s', throw (A := unit) e s1 = (r, s') ->
           exists d, emits s1 s' d /\ call_shape true r d).
    { intros e r0 s0 Hrun. exists []. eapply throw_shape; eassumption. }
    destruct (action_type (action p) =? "click"); [apply Hnext, Hcall; reflexivity|].
    destruct (action_type (action p) =? "hover"); [apply Hnext, Hcall; reflexivity|].
    destruct (action_type (action p) =? "fill").
    { destruct (action_value (action p));
        [apply Hnext, Hcall; reflexivity | apply Hnext, Hthrow]. }
    destruct (action_type (action p) =? "press").
    { destruct (action_value (action p));
        [apply Hnext, Hcall; reflexivity | apply Hnext, Hthrow]. }
    apply Hnext, Hthrow.
  - intros H. inversion H; subst. exists d1. split; [assumption|]. exact Hs1.
  - contradiction.
Qed.

(** [evaluateCondition] keeps the locals and calls no interaction. *)
Lemma evaluateCondition_spec p s r s' :
  evaluateCondition p s = (r, s') ->
  exists d, emits s s' d /\ untouched d /\ call_shape false r d.
Proof.
  unfold evaluateCondition.
  destruct (until (loop p)) as [u|].
  2:{ unfold ret. intros H. inversion H; subst. exists []. split; [apply emits_refl|].
      split; [constructor|]. split; [constructor | reflexivity]. }
  unfold bind.
  destruct (host_call _ _ s) as [[loc | e |] s1] eqn:Hloc;
    apply host_call_shape in Hloc; destruct Hloc as (d1 & Hd1 & Hs1 & Hu1);
    specialize (Hu1 eq_refl); cbn in Hs1.
  - set (m := if assertionType (assertion u) =? "toBeVisible" then _ else _).
    assert (Hm : forall r s', m s1 = (r, s') ->
       exists d, emits s1 s' d /\ untouched d /\ call_shape false r d).
    { assert (Hcall : forall c f, is_interaction c = false ->
        forall r s', host_call (A := bool) c f s1 = (r, s') ->
           exists d, emits s1 s' d /\ untouched d /\ call_shape false r d).
      { intros c f Hc r0 s0 Hrun. apply host_call_shape in Hrun.
        destruct Hrun as (d & Hd & Hs & Hu). rewrite Hc in Hs. eauto. }
      subst m.
      destruct (_ =? "toBeVisible"); [apply Hcall; reflexivity|].
      destruct (_ =? "toBeHidden"); [apply Hcall; reflexivity|].
      destruct (_ =? "toBeEnabled"); [apply Hcall; reflexivity|].
      destruct (_ =? "toBeDisabled"); [apply Hcall; reflexivity|].
      intros r0 s0 Hrun. exists []. apply (throw_shape false) in Hrun.
      split; [tauto|]. split; [constructor | tauto]. }
    destruct (m s1) as [[b | e |] s2] eqn:Hrun;
      destruct (Hm _ _ eq_refl) as (d2 & Hd2 & Hu2 & Hs2);
      [| |contradiction]; intros H; inversion H; subst;
      exists (d1 ++ d2)%list;
      (split; [eapply emits_trans; eassumption|]);
      (split; [now apply untouched_app|]);
      (apply call_shape_after; [apply Hs1 | exact Hu1 | exact Hs2]).
  - intros H. inversion H; subst. exists d1.
    split; [assumption|]. split; [assumption|]. exact Hs1.
  - contradiction.
Qed.

(* ------------------------------------------------------------------ *)
(** ** One cycle *)

Lemma cycle_steps {B} p what ms (k : M B) s :
  bind (record_iteration p what) (fun _ => bind (await_sleep ms) (fun _ => k)) s
  = k (completed p what ms s).
Proof. reflexivity. Qed.

(** A completed action takes a state between cycles to a state between
    cycles, with the counter one higher. *)
Lemma completed_post p what ms s s1 d :
  Post what (action p) (Ok tt) s ->
  emits s s1 d -> call_shape true (Ok tt) d ->
  Post what (action p) (Ok tt) (completed p what ms s1).
Proof.
  intros ([Hi He Hd] & Hc) (Hi1 & He1 & Ht1) (Hc1 & Hn1).
  split; [split|]; cbn [completed iteration evidence trace].
  - rewrite He1, Hi1, Hi, length_app. cbn [List.length]. lia.
  - rewrite He1, Hi1, Hi, length_app. cbn [List.length].
    rewrite Nat.add_1_r, numbered_S, <- He. do 3 f_equal. lia.
  - rewrite He1, Ht1, length_app, !count_if_app, Hd, Hn1. cbn. lia.
  - rewrite Ht1. apply clean_snoc. now apply clean_app.
Qed.

(** An action that throws leaves the counter and the evidence as they were. *)
Lemma thrown_post p what {A B} (b : bool) s s1 d e :
  Post what (action p) (Ok tt) s ->
  emits s s1 d -> call_shape (A := A) b (Throw e) d ->
  Post (A := B) what (action p) (Throw e) s1.
Proof.
  intros ([Hi He Hd] & Hc) (Hi1 & He1 & Ht1) (Hf & Hn).
  split; [split|]; rewrite ?He1, ?Hi1, ?Ht1; try assumption.
  - now rewrite count_if_app, Hn, Nat.add_0_r.
  - now apply failed_with_app.
Qed.

Lemma runAction_post p what ms s r s1 :
  Post what (action p) (Ok tt) s ->
  runAction p s = (r, s1) ->
  match r with
  | Ok _ => Post what (action p) (Ok tt) (completed p what ms s1)
            /\ iteration (completed p what ms s1) = iteration s + 1
  | Throw e => Post what (action p) (Throw (A := unit) e) s1
               /\ iteration s1 = iteration s
  | OutOfFuel => False
  end.
Proof.
  intros HP Hrun. apply runAction_spec in Hrun. destruct Hrun as (d & Hd & Hs).
  destruct r as [[] | e |]; [| |exact Hs].
  - split; [eapply completed_post; eassumption|].
    cbn. destruct Hd as (-> & _). reflexivity.
  - split; [eapply thrown_post; eassumption | apply Hd].
Qed.

Lemma evaluateCondition_post p what s r s1 :
  Post what (action p) (Ok tt) s ->
  evaluateCondition p s = (r, s1) ->
  Post what (action p) r s1 /\ iteration s1 = iteration s /\ r <> OutOfFuel
  /\ count_if interaction_called (trace s1) = count_if interaction_called (trace s).
Proof.
  intros HP Hrun. apply evaluateCondition_spec in Hrun.
  destruct Hrun as (d & Hd & Hu & Hs).
  assert (Hcalled : count_if interaction_called (trace s1)
                    = count_if interaction_called (trace s)).
  { destruct Hd as (_ & _ & ->).
    now rewrite count_if_app, (untouched_not_called _ Hu), Nat.add_0_r. }
  destruct r as [b | e |]; [| |contradiction].
  - split; [|split; [apply Hd | split; [discriminate | assumption]]].
    destruct HP as ([Hi He Hn] & Hc). destruct Hd as (Hi1 & He1 & Ht1).
    destruct Hs as (Hc1 & Hn1).
    split; [split|]; rewrite ?He1, ?Hi1, ?Ht1; try assumption.
    + now rewrite count_if_app, Hn1, Nat.add_0_r.
    + now apply clean_app.
  - split; [eapply thrown_post; eassumption|].
    split; [apply Hd | split; [discriminate | assumption]].
Qed.

(* ------------------------------------------------------------------ *)
(** ** The loops, one cycle at a time *)

Lemma forLoop_S p fuel n s :
  forLoop p (S fuel) n s =
  if (iteration s <? n)%Z then
    match runAction p s with
    | (Ok _, s1) => forLoop p fuel n (completed p "for-loop" 300 s1)
    | (Throw e, s1) => (Throw e, s1)
    | (OutOfFuel, s1) => (OutOfFuel, s1)
    end
  else (Ok tt, s).
Proof.
  cbn [forLoop]. unfold bind at 1, get_iteration.
  destruct (iteration s <? n)%Z; [|reflexivity].
  unfold forBody, bind at 1 2.
  destruct (runAction p s) as [[[] | e |] s1]; reflexivity.
Qed.

Lemma whileBody_eq p start s :
  whileBody p start s =
  match evaluateCondition p s with
  | (Ok true, s1) => (Ok Break, s1)
  | (Ok false, s1) =>
      match runAction p s1 with
      | (Ok _, s2) =>
          let s3 := completed p "while-loop" 100 s2 in
          (Ok (if (elapsed start s3 >? ELEMENT_ATTACHED_TIMEOUT tab)%Z
               then Break else Continue), s3)
      | (Throw e, s2) => (Throw e, s2)
      | (OutOfFuel, s2) => (OutOfFuel, s2)
      end
  | (Throw e, s1) => (Throw e, s1)
  | (OutOfFuel, s1) => (OutOfFuel, s1)
  end.
Proof.
  unfold whileBody, bind at 1.
  destruct (evaluateCondition p s) as [[[|] | e |] s1]; try reflexivity.
  unfold bind at 1.
  destruct (runAction p s1) as [[[] | e |] s2]; try reflexivity.
  rewrite cycle_steps. unfold bind, timed_out, now, ret, elapsed. cbn.
  now destruct (_ >? _)%Z.
Qed.

Lemma whileLoop_S p m start fuel s :
  whileLoop p m start (S fuel) s =
  if (iteration s <? m)%Z then
    match whileBody p start s with
    | (Ok Break, s1) => (Ok tt, s1)
    | (Ok Continue, s1) => whileLoop p m start fuel s1
    | (Throw e, s1) => (Throw e, s1)
    | (OutOfFuel, s1) => (OutOfFuel, s1)
    end
  else (Ok tt, s).
Proof.
  cbn [whileLoop]. unfold bind at 1, get_iteration.
  destruct (iteration s <? m)%Z; [|reflexivity].
  unfold bind.
  destruct (whileBody p start s) as [[[|] | e |] s1]; reflexivity.
Qed.

Lemma doWhileBody_eq p m start s :
  doWhileBody p m start s =
  match runAction p s with
  | (Ok _, s1) =>
      match evaluateCondition p (completed p "do-while" 100 s1) with
      | (Ok true, s2) => (Ok Break, s2)
      | (Ok false, s2) =>
          (Ok (if (iteration s2 >=? m)%Z then Break
               else if (elapsed start s2 >? ELEMENT_ATTACHED_TIMEOUT tab)%Z
                    then Break else Continue), s2)
      | (Throw e, s2) => (Throw e, s2)
      | (OutOfFuel, s2) => (OutOfFuel, s2)
      end
  | (Throw e, s1) => (Throw e, s1)
  | (OutOfFuel, s1) => (OutOfFuel, s1)
  end.
Proof.
  unfold doWhileBody, bind at 1.
  destruct (runAction p s) as [[[] | e |] s1]; try reflexivity.
  rewrite cycle_steps. unfold bind at 1.
  destruct (evaluateCondition p _) as [[[|] | e |] s2]; try reflexivity.
  unfold bind, get_iteration, timed_out, now, ret, elapsed. cbn.
  destruct (_ >=? _)%Z; [reflexivity|]. now destruct (_ >? _)%Z.
Qed.

Lemma doWhileLoop_S p m start fuel s :
  doWhileLoop p m start (S fuel) s =
  match doWhileBody p m start s with
  | (Ok Break, s1) => (Ok tt, s1)
  | (Ok Continue, s1) => doWhileLoop p m start fuel s1
  | (Throw e, s1) => (Throw e, s1)
  | (OutOfFuel, s1) => (OutOfFuel, s1)
  end.
Proof.
  cbn [doWhileLoop]. unfold bind.
  destruct (doWhileBody p m start s) as [[[|] | e |] s1]; reflexivity.
Qed.

(* ------------------------------------------------------------------ *)
(** ** What every cycle and every loop keeps *)

Lemma whileBody_post p start s r s' :
  Post "while-loop" (action p) (Ok tt) s ->
  whileBody p start s = (r, s') ->
  Post "while-loop" (action p) r s' /\ r <> OutOfFuel /\
  (r = Ok Continue ->
     iteration s' = iteration s + 1 /\
     elapsed start s' <= ELEMENT_ATTACHED_TIMEOUT tab).
Proof.
  intros HP. rewrite whileBody_eq.
  destruct (evaluateCondition p s) as [rc s1] eqn:Hc.
  destruct (evaluateCondition_post _ _ _ _ _ HP Hc) as (HP1 & Hi1 & Hne & _).
  destruct rc as [[|] | e |]; [| | |contradiction].
  - intros H; inversion H; subst.
    split; [exact HP1 | split; discriminate].
  - destruct (runAction p s1) as [ra s2] eqn:Ha.
    pose proof (runAction_post p "while-loop" 100 _ _ _ HP1 Ha) as HP2.
    destruct ra as [[] | e |]; [| |contradiction].
    + destruct HP2 as (HP2 & Hi2). intros H; inversion H; subst.
      split; [exact HP2 | split; [discriminate|]].
      intros Hk. split; [congruence|].
      destruct (_ >? _)%Z eqn:Ht in Hk; [discriminate|]. lia.
    + intros H; inversion H; subst. destruct HP2 as (HP2 & _).
      split; [exact HP2 | split; discriminate].
  - intros H; inversion H; subst.
    split; [exact HP1 | split; discriminate].
Qed.

Lemma doWhileBody_post p m start s r s' :
  Post "do-while" (action p) (Ok tt) s ->
  doWhileBody p m start s = (r, s') ->
  Post "do-while" (action p) r s' /\ r <> OutOfFuel /\
  (r = Ok Continue -> iteration s' = iteration s + 1 /\ iteration s' < m).
Proof.
  intros HP. rewrite doWhileBody_eq.
  destruct (runAction p s) as [ra s1] eqn:Ha.
  pose proof (runAction_post p "do-while" 100 _ _ _ HP Ha) as HP1.
  destruct ra as [[] | e |]; [| |contradiction].
  - destruct HP1 as (HP1 & Hi1).
    destruct (evaluateCondition p _) as [rc s2] eqn:Hc.
    destruct (evaluateCondition_post _ _ _ _ _ HP1 Hc) as (HP2 & Hi2 & Hne & _).
    destruct rc as [[|] | e |]; [| | |contradiction];
      intros H; inversion H; subst;
      (split; [exact HP2 | split; [discriminate|]]); try discriminate.
    intros Hk. destruct (_ >=? _)%Z eqn:Hm in Hk; [discriminate|]. lia.
  - intros H; inversion H; subst. destruct HP1 as (HP1 & _).
    split; [exact HP1 | split; discriminate].
Qed.

Lemma forLoop_post p n fuel : forall s r s',
  Post "for-loop" (action p) (Ok tt) s ->
  forLoop p fuel n s = (r, s') ->
  Post "for-loop" (action p) r s'.
Proof.
  induction fuel as [|fuel IH]; intros s r s' HP.
  - cbn. unfold diverge. intros H; inversion H; subst. exact HP.
  - rewrite forLoop_S. destruct (iteration s <? n)%Z.
    + destruct (runAction p s) as [ra s1] eqn:Ha.
      pose proof (runAction_post p "for-loop" 300 _ _ _ HP Ha) as HP1.
      destruct ra as [[] | e |]; [| |contradiction].
      * apply IH, HP1.
      * intros H; inversion H; subst. apply HP1.
    + intros H; inversion H; subst. exact HP.
Qed.

Lemma whileLoop_post p m start fuel : forall s r s',
  Post "while-loop" (action p) (Ok tt) s ->
  whileLoop p m start fuel s = (r, s') ->
  Post "while-loop" (action p) r s'.
Proof.
  induction fuel as [|fuel IH]; intros s r s' HP.
  - cbn. unfold diverge. intros H; inversion H; subst. exact HP.
  - rewrite whileLoop_S. destruct (iteration s <? m)%Z.
    + destruct (whileBody p start s) as [rb s1] eqn:Hb.
      destruct (whileBody_post _ _ _ _ _ HP Hb) as (HP1 & Hne & _).
      destruct rb as [[|] | e |]; [| | |contradiction].
      * intros H; inversion H; subst. exact HP1.
      * apply IH, HP1.
      * intros H; inversion H; subst. exact HP1.
    + intros H; inversion H; subst. exact HP.
Qed.

Lemma doWhileLoop_post p m start fuel : forall s r s',
  Post "do-while" (action p) (Ok tt) s ->
  doWhileLoop p m start fuel s = (r, s') ->
  Post "do-while" (action p) r s'.
Proof.
  induction fuel as [|fuel IH]; intros s r s' HP.
  - cbn. unfold diverge. intros H; inversion H; subst. exact HP.
  - rewrite doWhileLoop_S.
    destruct (doWhileBody p m start s) as [rb s1] eqn:Hb.
    destruct (doWhileBody_post _ _ _ _ _ _ HP Hb) as (HP1 & Hne & _).
    destruct rb as [[|] | e |]; [| | |contradiction].
    + intros H; inversion H; subst. exact HP1.
    + apply IH, HP1.
    + intros H; inversion H; subst. exact HP1.
Qed.

Lemma initial_post what a w : Post what a (Ok tt) (initial w).
Proof. split; [split; reflexivity | constructor]. Qed.

(** Whatever the discipline, the loop ends in a state where counter,
    evidence and log agree. *)
Lemma loopStart_post p m start fuel s r s' :
  Post (what_of p) (action p) (Ok tt) s ->
  loopStart p m start fuel s = (r, s') ->
  Post (what_of p) (action p) r s'.
Proof.
  unfold loopStart, what_of.
  destruct (loop_type (loop p) =? "for").
  { destruct (iterations (loop p)) as [n|]; [apply forLoop_post|].
    intros HP H; inversion H; subst. exact HP. }
  destruct (loop_type (loop p) =? "while"); [apply whileLoop_post|].
  destruct (loop_type (loop p) =? "do-while"); [apply doWhileLoop_post|].
  intros HP H; inversion H; subst. exact HP.
Qed.

(* ------------------------------------------------------------------ *)
(** ** The handler *)

(** The two checks touch nothing. *)
Lemma validate_cases p s :
  validate p s = (Ok tt, s) \/ exists e, validate p s = (Throw e, s).
Proof.
  unfold validate, bind.
  destruct (loop_type (loop p) =? "for").
  - destruct (iterations (loop p)); [|right; eexists; reflexivity].
    cbn [ret]. destruct (_ || _); [|now left].
    destruct (until (loop p)); [now left | right; eexists; reflexivity].
  - cbn [ret]. destruct (_ || _); [|now left].
    destruct (until (loop p)); [now left | right; eexists; reflexivity].
Qed.

Lemma validate_for p n s :
  loop_type (loop p) = "for" -> iterations (loop p) = Some n ->
  validate p s = (Ok tt, s).
Proof.
  intros Ht Hn. unfold validate, bind. rewrite Ht, Hn. reflexivity.
Qed.

Lemma validate_until p u s :
  loop_type (loop p) = "while" \/ loop_type (loop p) = "do-while" ->
  until (loop p) = Some u ->
  validate p s = (Ok tt, s).
Proof.
  intros [Ht | Ht] Hu; unfold validate, bind; rewrite Ht, Hu; reflexivity.
Qed.

Lemma handle_eq fuel p w :
  handle fuel p w =
  match validate p (initial w) with
  | (Ok _, _) =>
      match loopStart p (maxIterations_of p) (Date_now tab w) fuel (initial w) with
      | (Ok _, s) => (Ok (toolResponse p (iteration s) (evidence s)), s)
      | (Throw e, s) => (Throw e, s)
      | (OutOfFuel, s) => (OutOfFuel, s)
      end
  | (Throw e, _) => (Throw e, initial w)
  | (OutOfFuel, _) => (OutOfFuel, initial w)
  end.
Proof.
  unfold handle, handle_body, waitForCompletion.
  unfold bind at 1, now. cbn [world initial].
  unfold bind at 1.
  destruct (validate_cases p (initial w)) as [-> | (e & ->)]; [|reflexivity].
  unfold bind at 1.
  destruct (loopStart _ _ _ _ _) as [[[] | e |] s]; reflexivity.
Qed.

(** A run that passed the two checks is the loop followed by the report. *)
Lemma handle_valid fuel p w :
  validate p (initial w) = (Ok tt, initial w) ->
  handle fuel p w =
  match loopStart p (maxIterations_of p) (Date_now tab w) fuel (initial w) with
  | (Ok _, s) => (Ok (toolResponse p (iteration s) (evidence s)), s)
  | (Throw e, s) => (Throw e, s)
  | (OutOfFuel, s) => (OutOfFuel, s)
  end.
Proof. intros H. rewrite handle_eq, H. reflexivity. Qed.

(** However an invocation ends, counter, evidence and log agree, and a
    report, when there is one, is built from the final counter and evidence. *)
Lemma handle_post fuel p w r s :
  handle fuel p w = (r, s) ->
  Post (what_of p) (action p) r s /\
  (forall rep, r = Ok rep -> rep = toolResponse p (iteration s) (evidence s)).
Proof.
  rewrite handle_eq.
  destruct (validate_cases p (initial w)) as [-> | (e & ->)].
  - destruct (loopStart _ _ _ _ _) as [rl s1] eqn:Hl.
    pose proof (loopStart_post _ _ _ _ _ _ _ (initial_post _ _ w) Hl) as HP.
    destruct rl as [[] | e |]; intros H; inversion H; subst;
      (split; [exact HP|]); intros rep Hrep; now inversion Hrep.
  - intros H; inversion H; subst. split; [|discriminate].
    split; [apply initial_post | apply clean_failed; constructor].
Qed.

(** *** Termination *)

Lemma forLoop_fuel p n fuel : forall s,
  (Z.to_nat (n - iteration s) < fuel)%nat ->
  fst (forLoop p fuel n s) <> OutOfFuel.
Proof.
  induction fuel as [|fuel IH]; intros s Hf; [lia|].
  rewrite forLoop_S. destruct (iteration s <? n)%Z eqn:Hlt; [|discriminate].
  destruct (runAction p s) as [ra s1] eqn:Ha.
  apply runAction_spec in Ha. destruct Ha as (d & (Hi & _) & Hs).
  destruct ra as [[] | e |]; [|discriminate|contradiction].
  apply IH. cbn [completed iteration]. lia.
Qed.

Lemma whileLoop_fuel p m start fuel : forall s,
  (Z.to_nat (m - iteration s) < fuel)%nat ->
  fst (whileLoop p m start fuel s) <> OutOfFuel.
Proof.
  induction fuel as [|fuel IH]; intros s Hf; [lia|].
  rewrite whileLoop_S. destruct (iteration s <? m)%Z eqn:Hlt; [|discriminate].
  rewrite whileBody_eq.
  destruct (evaluateCondition p s) as [rc s1] eqn:Hc.
  apply evaluateCondition_spec in Hc. destruct Hc as (d & (Hi & _) & _ & Hs).
  destruct rc as [[|] | e |]; [discriminate| |discriminate|contradiction].
  destruct (runAction p s1) as [ra s2] eqn:Ha.
  apply runAction_spec in Ha. destruct Ha as (d2 & (Hi2 & _) & Hs2).
  destruct ra as [[] | e |]; [|discriminate|contradiction].
  cbv zeta. destruct (_ >? _)%Z; [discriminate|].
  apply IH. cbn [completed iteration]. lia.
Qed.

Lemma doWhileLoop_fuel p m start fuel : forall s,
  (0 < fuel)%nat -> (Z.to_nat (m - iteration s) <= fuel)%nat ->
  fst (doWhileLoop p m start fuel s) <> OutOfFuel.
Proof.
  induction fuel as [|fuel IH]; intros s Hpos Hf; [lia|].
  rewrite doWhileLoop_S, doWhileBody_eq.
  destruct (runAction p s) as [ra s1] eqn:Ha.
  apply runAction_spec in Ha. destruct Ha as (d & (Hi & _) & Hs).
  destruct ra as [[] | e |]; [|discriminate|contradiction].
  destruct (evaluateCondition p _) as [rc s2] eqn:Hc.
  apply evaluateCondition_spec in Hc. destruct Hc as (d2 & (Hi2 & _) & _ & Hs2).
  cbn [completed iteration] in Hi2.
  destruct rc as [[|] | e |]; [discriminate| |discriminate|contradiction].
  destruct (iteration s2 >=? m)%Z eqn:Hge; [discriminate|].
  destruct (_ >? _)%Z; [discriminate|].
  apply IH; lia.
Qed.

(** With [fuel_needed] units of fuel or more, an invocation returns or throws. *)
Lemma handle_terminates fuel p w :
  (fuel_needed p <= fuel)%nat -> fst (handle fuel p w) <> OutOfFuel.
Proof.
  unfold fuel_needed. intros Hf. rewrite handle_eq.
  destruct (validate_cases p (initial w)) as [-> | (e & ->)]; [|discriminate].
  assert (Hl : fst (loopStart p (maxIterations_of p) (Date_now tab w) fuel (initial w))
               <> OutOfFuel).
  { unfold loopStart. destruct (loop_type (loop p) =? "for").
    - destruct (iterations (loop p)) as [n|]; [|discriminate].
      apply forLoop_fuel. cbn [initial iteration]. rewrite Z.sub_0_r. lia.
    - destruct (loop_type (loop p) =? "while").
      + apply whileLoop_fuel. cbn [initial iteration]. rewrite Z.sub_0_r. lia.
      + destruct (loop_type (loop p) =? "do-while"); [|discriminate].
        apply doWhileLoop_fuel; [lia|]. cbn [initial iteration].
        rewrite Z.sub_0_r. lia. }
  destruct (loopStart _ _ _ _ _) as [[[] | e |] s]; cbn in *; congruence.
Qed.

(* ------------------------------------------------------------------ *)
(** ** Runs in which nothing fails *)

Lemma runAction_keeps p s r s' :
  runAction p s = (r, s') -> iteration s' = iteration s.
Proof. intros H. apply runAction_spec in H. destruct H as (d & (Hi & _) & _). exact Hi. Qed.

Lemma evaluateCondition_keeps p s r s' :
  evaluateCondition p s = (r, s') -> iteration s' = iteration s.
Proof.
  intros H. apply evaluateCondition_spec in H.
  destruct H as (d & (Hi & _) & _). exact Hi.
Qed.

(** The [for] loop stops when the counter is [n], and not before. *)
Lemma forLoop_runs p n :
  always_succeeds (runAction p) ->
  forall fuel s, (Z.to_nat (n - iteration s) < fuel)%nat ->
  exists s', forLoop p fuel n s = (Ok tt, s') /\ iteration s' = Z.max n (iteration s).
Proof.
  intros Hact. induction fuel as [|fuel IH]; intros s Hf; [lia|].
  rewrite forLoop_S. destruct (iteration s <? n)%Z eqn:Hlt.
  - destruct (Hact s) as ([] & s1 & Ha). rewrite Ha.
    apply runAction_keeps in Ha.
    destruct (IH (completed p "for-loop" 300 s1)) as (s' & Hrun & Hi).
    { cbn [completed iteration]. lia. }
    exists s'. split; [exact Hrun|]. rewrite Hi. cbn [completed iteration]. lia.
  - exists s. split; [reflexivity | lia].
Qed.

Lemma while_cycle_end_iteration p s :
  iteration (while_cycle_end p s) = iteration s + 1.
Proof.
  unfold while_cycle_end. cbn [completed iteration].
  rewrite (runAction_keeps p _ _ _ (surjective_pairing _)).
  now rewrite (evaluateCondition_keeps p _ _ _ (surjective_pairing _)).
Qed.

Lemma do_while_cycle_end_iteration p s :
  iteration (do_while_cycle_end p s) = iteration s + 1.
Proof.
  unfold do_while_cycle_end.
  rewrite (evaluateCondition_keeps p _ _ _ (surjective_pairing _)).
  cbn [completed iteration].
  now rewrite (runAction_keeps p _ _ _ (surjective_pairing _)).
Qed.

Lemma iter_iteration (step : State -> State) s0 k :
  (forall s, iteration (step s) = iteration s + 1) ->
  iteration (Nat.iter k step s0) = iteration s0 + Z.of_nat k.
Proof.
  intros Hstep. induction k as [|k IH]; [cbn; lia|].
  rewrite Nat.iter_succ, Hstep, IH. lia.
Qed.

(** In an unhindered run the [while] loop stops when the counter is [m]. *)
Lemma whileLoop_runs p m start s0 :
  iteration s0 = 0 ->
  unhindered_while p start m s0 ->
  forall fuel j, (Z.to_nat (m - Z.of_nat j) < fuel)%nat ->
  exists s', whileLoop p m start fuel (Nat.iter j (while_cycle_end p) s0) = (Ok tt, s')
             /\ iteration s' = Z.max m (Z.of_nat j).
Proof.
  intros H0 Hrun. induction fuel as [|fuel IH]; intros j Hf; [lia|].
  pose proof (iter_iteration _ s0 j (while_cycle_end_iteration p)) as Hj.
  rewrite H0 in Hj. set (s := Nat.iter j (while_cycle_end p) s0) in *.
  rewrite whileLoop_S. destruct (iteration s <? m)%Z eqn:Hlt.
  - destruct (Hrun j) as ((s1 & Hc) & (s2 & Ha) & Htime); [lia|].
    fold s in Hc, Ha, Htime.
    assert (Hend : while_cycle_end p s = completed p "while-loop" 100 s2).
    { unfold while_cycle_end. now rewrite Ha. }
    rewrite Hc in Ha. cbn [snd] in Ha.
    rewrite whileBody_eq, Hc, Ha. cbv zeta. rewrite <- Hend.
    assert (Hnext : while_cycle_end p s = Nat.iter (S j) (while_cycle_end p) s0)
      by now rewrite Nat.iter_succ.
    pose proof (while_cycle_end_iteration p s) as Hi.
    destruct (_ >? _)%Z eqn:Hgt.
    + exists (while_cycle_end p s). split; [reflexivity|].
      assert (~ Z.of_nat j + 1 < m) by (intros Hk; specialize (Htime Hk); lia). lia.
    + rewrite Hnext. destruct (IH (S j)) as (s' & Hs' & Hi'); [lia|].
      exists s'. split; [exact Hs' | lia].
  - exists s. split; [reflexivity | lia].
Qed.

(** In an unhindered run the [do-while] loop stops when the counter is [m],
    but not before its first action. *)
Lemma doWhileLoop_runs p m start s0 :
  iteration s0 = 0 ->
  unhindered_do_while p start m s0 ->
  forall fuel j, (0 < fuel)%nat -> (Z.to_nat (m - Z.of_nat j) <= fuel)%nat ->
  j = O \/ Z.of_nat j < m ->
  exists s', doWhileLoop p m start fuel (Nat.iter j (do_while_cycle_end p) s0)
             = (Ok tt, s')
             /\ iteration s' = Z.max m (Z.of_nat j + 1).
Proof.
  intros H0 Hrun. induction fuel as [|fuel IH]; intros j Hpos Hf Hin; [lia|].
  pose proof (iter_iteration _ s0 j (do_while_cycle_end_iteration p)) as Hj.
  rewrite H0 in Hj. set (s := Nat.iter j (do_while_cycle_end p) s0) in *.
  destruct (Hrun j Hin) as ((s1 & Ha) & (s2 & Hc) & Htime).
  fold s in Ha, Hc, Htime.
  assert (Hend : do_while_cycle_end p s = s2).
  { unfold do_while_cycle_end. now rewrite Hc. }
  rewrite Ha in Hc. cbn [snd] in Hc.
  rewrite doWhileLoop_S, doWhileBody_eq, Ha, Hc.
  pose proof (do_while_cycle_end_iteration p s) as Hi. rewrite Hend in Hi.
  destruct (iteration s2 >=? m)%Z eqn:Hge.
  - exists s2. split; [reflexivity | lia].
  - assert (Hk : Z.of_nat j + 1 < m) by lia. specialize (Htime Hk).
    rewrite Hend in Htime.
    destruct (_ >? _)%Z eqn:Hgt; [lia|].
    assert (Hnext : s2 = Nat.iter (S j) (do_while_cycle_end p) s0)
      by now rewrite Nat.iter_succ, <- Hend.
    rewrite Hnext. destruct (IH (S j)) as (s' & Hs' & Hi'); [lia | lia | right; lia |].
    exists s'. split; [exact Hs' | lia].
Qed.

(** What a clean final state with counter [k] says about the run. *)
Lemma post_counts what a {A} (x : A) s k :
  Post what a (Ok x) s -> iteration s = k ->
  evidence s = numbered what a (Z.to_nat k) /\
  count_if action_done (trace s) = Z.to_nat k /\
  count_if interaction_called (trace s) = Z.to_nat k.
Proof.
  intros ([Hi He Hd] & Hc) Hk.
  assert (Hn : List.length (evidence s) = Z.to_nat k) by lia.
  rewrite (clean_called_done _ Hc), Hd, <- Hn. now split.
Qed.

Lemma verdict_pass i : verdict i = "pass" <-> 0 < i.
Proof.
  unfold verdict. destruct (i >? 0)%Z eqn:H; split; intros; try reflexivity;
    try discriminate; lia.
Qed.


(** The counter never goes down in a [do-while] loop. *)
Lemma doWhileLoop_grows p m start fuel : forall s r s',
  doWhileLoop p m start fuel s = (r, s') -> iteration s <= iteration s'.
Proof.
  induction fuel as [|fuel IH]; intros s r s'.
  - cbn. unfold diverge. intros H; inversion H; subst. lia.
  - rewrite doWhileLoop_S, doWhileBody_eq.
    destruct (runAction p s) as [ra s1] eqn:Ha. apply runAction_keeps in Ha.
    destruct ra as [[] | e |]; try (intros H; inversion H; subst; lia).
    destruct (evaluateCondition p _) as [rc s2] eqn:Hc.
    apply evaluateCondition_keeps in Hc. cbn [completed iteration] in Hc.
    destruct rc as [[|] | e |]; try (intros H; inversion H; subst; lia).
    destruct (_ >=? _)%Z; [intros H; inversion H; subst; lia|].
    destruct (_ >? _)%Z; [intros H; inversion H; subst; lia|].
    intros H. apply IH in H. lia.
Qed.

(** A run that passes the checks and whose loop ends normally with the
    counter at [k] reports [k] numbered records, and has called an
    interaction method [k] times. *)
Lemma handle_completes fuel p w s k :
  validate p (initial w) = (Ok tt, initial w) ->
  loopStart p (maxIterations_of p) (Date_now tab w) fuel (initial w) = (Ok tt, s) ->
  iteration s = k ->
  handle fuel p w
  = (Ok (toolResponse p k (numbered (what_of p) (action p) (Z.to_nat k))), s)
  /\ count_if action_done (trace s) = Z.to_nat k
  /\ count_if interaction_called (trace s) = Z.to_nat k.
Proof.
  intros Hv Hl Hk.
  pose proof (loopStart_post _ _ _ _ _ _ _ (initial_post _ _ w) Hl) as HP.
  destruct (post_counts _ _ _ _ _ HP Hk) as (He & Hd & Hc).
  rewrite (handle_valid _ _ _ Hv), Hl, Hk, He. now split.
Qed.

(* ------------------------------------------------------------------ *)
(** ** The claims *)

(** C1. A [for] loop with [iterations = k >= 1] whose action always succeeds
    calls an interaction method exactly [k] times, all of which return,
    produces exactly [k] records numbered [1..k] in order, and reports
    ['pass']. *)
Theorem for_runs_exactly_k fuel p k w :
  loop_type (loop p) = "for" ->
  iterations (loop p) = Some k ->
  1 <= k ->
  always_succeeds (runAction p) ->
  (fuel_needed p <= fuel)%nat ->
  exists rep s,
    handle fuel p w = (Ok rep, s) /\
    count_if interaction_called (trace s) = Z.to_nat k /\
    count_if action_done (trace s) = Z.to_nat k /\
    List.length (evidence_of (summary rep)) = Z.to_nat k /\
    map ev_iteration (evidence_of (summary rep)) = map Z.of_nat (seq 1 (Z.to_nat k)) /\
    total (summary rep) = k /\
    status (summary rep) = "pass".
Proof.
  intros Ht Hn Hk Hact Hf.
  unfold fuel_needed in Hf. rewrite Ht, Hn in Hf. cbn in Hf.
  destruct (forLoop_runs p k Hact fuel (initial w)) as (s & Hrun & Hi).
  { cbn [initial iteration]. rewrite Z.sub_0_r. lia. }
  cbn [initial iteration] in Hi. rewrite Z.max_l in Hi by lia.
  destruct (handle_completes fuel p w s k) as (Hh & Hd & Hc).
  { eapply validate_for; eassumption. }
  { unfold loopStart. rewrite Ht, Hn. exact Hrun. }
  { exact Hi. }
  eexists; exists s. split; [exact Hh|].
  cbn [toolResponse summary evidence_of status total].
  rewrite numbered_length, numbered_iterations.
  repeat split; try assumption. apply verdict_pass. lia.
Qed.

(** C3 (amended). A [while] loop whose stop condition evaluates to true
    before any iteration calls no interaction method and reports zero
    records and ['fail'].  A [do-while] loop does not look at the condition
    before its first action: whenever that action succeeds, at least one
    interaction has returned and one record been made, however the
    invocation ends; and when the condition evaluates to true at its first
    evaluation, which comes after that action and its delay, the loop has
    called an interaction method exactly once and reports exactly one
    record. *)
Theorem condition_true_from_the_start fuel p w :
  (0 < fuel)%nat ->
  (loop_type (loop p) = "while" ->
   forall s1,
     evaluateCondition p (initial w) = (Ok true, s1) ->
     exists rep s,
       handle fuel p w = (Ok rep, s) /\
       count_if interaction_called (trace s) = 0%nat /\
       evidence_of (summary rep) = [] /\
       status (summary rep) = "fail") /\
  (loop_type (loop p) = "do-while" ->
   forall s1 s2,
     runAction p (initial w) = (Ok tt, s1) ->
     evaluateCondition p (completed p "do-while" 100 s1) = (Ok true, s2) ->
     exists rep s,
       handle fuel p w = (Ok rep, s) /\
       count_if interaction_called (trace s) = 1%nat /\
       evidence_of (summary rep) = [iteration_record "do-while" (action p) 1] /\
       status (summary rep) = "pass") /\
  (loop_type (loop p) = "do-while" ->
   until (loop p) <> None ->
   forall s1 r s,
     runAction p (initial w) = (Ok tt, s1) ->
     handle fuel p w = (r, s) ->
     (1 <= count_if action_done (trace s))%nat /\
     (1 <= List.length (evidence s))%nat).
Proof.
  intros Hf.
  assert (Hu : forall s0 s1, evaluateCondition p s0 = (Ok true, s1) ->
                 exists u, until (loop p) = Some u).
  { intros s0 s1 Hc. unfold evaluateCondition in Hc.
    destruct (until (loop p)) as [u|]; [now exists u | discriminate]. }
  destruct fuel as [|fuel]; [lia|]. split; [|split].
  - intros Ht s1 Hc. destruct (Hu _ _ Hc) as (u & Hu').
    assert (Hl : exists s, loopStart p (maxIterations_of p) (Date_now tab w)
                             (S fuel) (initial w) = (Ok tt, s) /\ iteration s = 0).
    { unfold loopStart. rewrite Ht. cbn [String.eqb Ascii.eqb Bool.eqb].
      rewrite whileLoop_S. destruct (_ <? _)%Z.
      - rewrite whileBody_eq, Hc. exists s1. split; [reflexivity|].
        now apply evaluateCondition_keeps in Hc.
      - exists (initial w). now split. }
    destruct Hl as (s & Hl & Hi).
    destruct (handle_completes (S fuel) p w s 0) as (Hh & Hd & Hn); try assumption.
    { eapply validate_until; [left|]; eassumption. }
    eexists; exists s. split; [exact Hh|].
    split; [exact Hn|]. split; reflexivity.
  - intros Ht s1 s2 Ha Hc. destruct (Hu _ _ Hc) as (u & Hu').
    assert (Hl : loopStart p (maxIterations_of p) (Date_now tab w)
                   (S fuel) (initial w) = (Ok tt, s2)).
    { unfold loopStart. rewrite Ht. cbn [String.eqb Ascii.eqb Bool.eqb].
      rewrite doWhileLoop_S, doWhileBody_eq, Ha, Hc. reflexivity. }
    assert (Hi : iteration s2 = 1).
    { apply evaluateCondition_keeps in Hc. rewrite Hc.
      apply runAction_keeps in Ha. cbn [completed iteration]. rewrite Ha.
      reflexivity. }
    destruct (handle_completes (S fuel) p w s2 1) as (Hh & Hd & Hn); try assumption.
    { eapply validate_until; [right|]; eassumption. }
    eexists; exists s2. split; [exact Hh|].
    split; [exact Hn|].
    cbn [toolResponse summary evidence_of status].
    unfold what_of. rewrite Ht. split; reflexivity.
  - intros Ht Hsome s1 r s Ha Hh.
    destruct (until (loop p)) as [u|] eqn:Hu'; [clear Hsome | congruence].
    destruct (handle_post _ _ _ _ _ Hh) as (([Hi _ Hd] & _) & _).
    rewrite handle_valid in Hh by (eapply validate_until; [right|]; eassumption).
    unfold loopStart in Hh. rewrite Ht in Hh.
    cbn [String.eqb Ascii.eqb Bool.eqb] in Hh.
    rewrite doWhileLoop_S, doWhileBody_eq, Ha in Hh.
    pose proof (runAction_keeps _ _ _ _ Ha) as Hi1. cbn [initial iteration] in Hi1.
    assert (Hge : 1 <= iteration s).
    { destruct (evaluateCondition p _) as [rc s2] eqn:Hc.
      pose proof (evaluateCondition_keeps _ _ _ _ Hc) as Hi2.
      cbn [completed iteration] in Hi2. rewrite Hi1 in Hi2.
      destruct rc as [[|] | e |]; try (inversion Hh; subst; lia).
      destruct (_ >=? _)%Z; [inversion Hh; subst; lia|].
      destruct (_ >? _)%Z; [inversion Hh; subst; lia|].
      destruct (doWhileLoop _ _ _ _ _) as [rl sl] eqn:Hl.
      apply doWhileLoop_grows in Hl.
      assert (sl = s) by (destruct rl as [[] | e |]; now inversion Hh). subst sl. lia. }
    split; lia.
Qed.

(** C4 (amended). In a run in which, up to the cap, the condition is never
    met, the action and the evaluation of the condition succeed and the
    timeout is not breached, a [while] loop capped at [m] produces [max m 0]
    records and a [do-while] loop [max m 1]; that is [m] records in both
    whenever [m >= 1], and no action beyond them. *)
Theorem capped_loop_runs fuel p m w :
  maxIterations_of p = m ->
  until (loop p) <> None ->
  (fuel_needed p <= fuel)%nat ->
  (loop_type (loop p) = "while" ->
   unhindered_while p (Date_now tab w) m (initial w) ->
   exists rep s,
     handle fuel p w = (Ok rep, s) /\
     List.length (evidence_of (summary rep)) = Z.to_nat m /\
     count_if interaction_called (trace s) = Z.to_nat m) /\
  (loop_type (loop p) = "do-while" ->
   unhindered_do_while p (Date_now tab w) m (initial w) ->
   exists rep s,
     handle fuel p w = (Ok rep, s) /\
     List.length (evidence_of (summary rep)) = Z.to_nat (Z.max m 1) /\
     count_if interaction_called (trace s) = Z.to_nat (Z.max m 1)).
Proof.
  intros Hm Hu Hf.
  destruct (until (loop p)) as [u|] eqn:Hu'; [clear Hu | congruence].
  unfold fuel_needed in Hf. split; intros Ht Hrun; rewrite Ht in Hf; cbn in Hf.
  - destruct (whileLoop_runs p m (Date_now tab w) (initial w) eq_refl Hrun fuel O)
      as (s & Hl & Hi).
    { cbn. rewrite Z.sub_0_r. lia. }
    cbn [Nat.iter nat_rect] in Hl.
    destruct (handle_completes fuel p w s (Z.max m 0)) as (Hh & Hd & Hc).
    { eapply validate_until; [left|]; eassumption. }
    { unfold loopStart. rewrite Ht, Hm. exact Hl. }
    { cbn in Hi. exact Hi. }
    eexists; exists s. split; [exact Hh|].
    cbn [toolResponse summary evidence_of]. rewrite numbered_length, Hc.
    split; lia.
  - destruct (doWhileLoop_runs p m (Date_now tab w) (initial w) eq_refl Hrun fuel O)
      as (s & Hl & Hi).
    { lia. }
    { cbn. rewrite Z.sub_0_r. lia. }
    { now left. }
    cbn [Nat.iter nat_rect] in Hl.
    destruct (handle_completes fuel p w s (Z.max m 1)) as (Hh & Hd & Hc).
    { eapply validate_until; [right|]; eassumption. }
    { unfold loopStart. rewrite Ht, Hm. exact Hl. }
    { cbn in Hi. exact Hi. }
    eexists; exists s. split; [exact Hh|].
    cbn [toolResponse summary evidence_of]. rewrite numbered_length, Hc.
    split; reflexivity.
Qed.


(** C9. In the report of an invocation that completes, record [i] (from 0)
    carries iteration number [i + 1], so the numbers increase strictly, and
    there is exactly one record per interaction that was called and
    returned, whatever the discipline. *)
Theorem evidence_is_numbered fuel p w rep s :
  handle fuel p w = (Ok rep, s) ->
  let records := evidence_of (summary rep) in
  (forall i d, (i < List.length records)%nat ->
               ev_iteration (nth i records d) = Z.of_nat i + 1) /\
  (forall i j d, (i < j < List.length records)%nat ->
                 ev_iteration (nth i records d) < ev_iteration (nth j records d)) /\
  List.length records = count_if action_done (trace s) /\
  List.length records = count_if interaction_called (trace s).
Proof.
  intros Hh. destruct (handle_post _ _ _ _ _ Hh) as (([Hi He Hd] & Hc) & Hrep).
  rewrite (Hrep rep eq_refl). cbn [toolResponse summary evidence_of].
  cbv zeta. rewrite (clean_called_done _ Hc), Hd.
  assert (Hnth : forall i d, (i < List.length (evidence s))%nat ->
                   ev_iteration (nth i (evidence s) d) = Z.of_nat i + 1).
  { intros i d Hlt. rewrite He. apply numbered_nth. exact Hlt. }
  split; [exact Hnth|]. split; [|now split].
  intros i j d Hij. rewrite !Hnth by lia. lia.
Qed.

(** C6 (amended). If a call into the host (a locate, an interaction, a
    condition check) throws during an invocation, the invocation throws that
    very error and returns no report; the failed call is the last call made,
    so no further iteration ran; and at that point the counter and the
    evidence count exactly the interactions that returned: a failed
    interaction is the one interaction called that has no record and did not
    move the counter, whereas a failed locate or condition check leaves as
    many records as interactions called (so the cycle of a [do-while] loop
    whose condition check fails has its record, the action having returned
    before). *)
Theorem failure_aborts fuel p w r s c e :
  handle fuel p w = (r, s) ->
  In (Ev c (Some e)) (trace s) ->
  r = Throw e /\
  (exists pre, clean pre /\ trace s = (pre ++ [Ev c (Some e)])%list) /\
  iteration s = Z.of_nat (List.length (evidence s)) /\
  List.length (evidence s) = count_if action_done (trace s) /\
  evidence s = numbered (what_of p) (action p) (List.length (evidence s)) /\
  count_if interaction_called (trace s)
  = (List.length (evidence s) + if is_interaction c then 1 else 0)%nat.
Proof.
  intros Hh Hin. destruct (handle_post _ _ _ _ _ Hh) as (([Hi He Hd] & Hc) & _).
  destruct r as [rep | e' |];
    try (exfalso; eapply clean_no_throw; eassumption).
  destruct (failed_with_last _ _ _ _ Hc Hin) as (-> & Hpre).
  repeat split; auto.
  destruct Hpre as (pre & Hclean & Htr).
  rewrite <- Hd, Htr, !count_if_app, (clean_called_done _ Hclean).
  unfold count_if at 2 4. unfold action_done, interaction_called.
  cbn [filter ev_call returned ev_thrown].
  destruct (is_interaction c); cbn; lia.
Qed.

(** C7. A [for] spec without [iterations], or a [while] or [do-while] spec
    without [until], makes the invocation throw an error that names the
    missing field, with nothing called on the host and no evidence. *)
Theorem missing_field_rejected fuel p w :
  (loop_type (loop p) = "for" /\ iterations (loop p) = None) \/
  ((loop_type (loop p) = "while" \/ loop_type (loop p) = "do-while")
   /\ until (loop p) = None) ->
  exists msg s,
    handle fuel p w = (Throw (Error msg), s) /\
    msg = (if loop_type (loop p) =? "for" then missing_iterations
           else missing_until (loop_type (loop p))) /\
    trace s = [] /\ evidence s = [] /\ world s = w.
Proof.
  intros H. rewrite handle_eq. unfold validate, bind.
  destruct H as [(Ht & Hn) | ([Ht | Ht] & Hu)].
  - rewrite Ht, Hn. cbn. do 2 eexists. split; [reflexivity|]. now repeat split.
  - rewrite Ht, Hu. cbn. do 2 eexists. split; [reflexivity|]. now repeat split.
  - rewrite Ht, Hu. cbn. do 2 eexists. split; [reflexivity|]. now repeat split.
Qed.

(** *** An action without its value *)




(** *** The first cycle of [do-while] *)

(** C10. In a [do-while] loop the cap is looked at only after an iteration:
    when the first action and the first evaluation of the condition succeed,
    at least one interaction has returned and at least one record exists,
    whatever [maxIterations] is; a report, if one is returned, says ['pass'];
    and with [maxIterations = 0] and the condition not met, the report has
    exactly one record. *)
Theorem do_while_runs_at_least_once fuel p w s1 b s2 r s :
  loop_type (loop p) = "do-while" ->
  until (loop p) <> None ->
  (0 < fuel)%nat ->
  runAction p (initial w) = (Ok tt, s1) ->
  evaluateCondition p (completed p "do-while" 100 s1) = (Ok b, s2) ->
  handle fuel p w = (r, s) ->
  (1 <= count_if action_done (trace s))%nat /\
  (1 <= List.length (evidence s))%nat /\
  nth_error (evidence s) 0 = Some (iteration_record "do-while" (action p) 1) /\
  (forall rep, r = Ok rep ->
     (1 <= List.length (evidence_of (summary rep)))%nat
     /\ status (summary rep) = "pass") /\
  (maxIterations_of p = 0 -> b = false ->
   exists rep, r = Ok rep /\
     evidence_of (summary rep) = [iteration_record "do-while" (action p) 1]).
Proof.
  intros Ht Hu Hf Ha Hc Hh.
  destruct (until (loop p)) as [u|] eqn:Hu'; [clear Hu | congruence].
  destruct fuel as [|fuel]; [lia|].
  pose proof (runAction_keeps _ _ _ _ Ha) as Hi1. cbn [initial iteration] in Hi1.
  pose proof (evaluateCondition_keeps _ _ _ _ Hc) as Hi2.
  cbn [completed iteration] in Hi2. rewrite Hi1 in Hi2. cbn in Hi2.
  destruct (handle_post _ _ _ _ _ Hh) as (([Hi He Hd] & _) & Hrep).
  assert (Hwhat : what_of p = "do-while") by (unfold what_of; now rewrite Ht).
  rewrite Hwhat in He.
  rewrite handle_valid in Hh by (eapply validate_until; [right|]; eassumption).
  unfold loopStart in Hh. rewrite Ht in Hh. cbn [String.eqb Ascii.eqb Bool.eqb] in Hh.
  rewrite doWhileLoop_S, doWhileBody_eq, Ha, Hc in Hh.
  assert (Hge : 1 <= iteration s).
  { destruct b; [inversion Hh; subst; lia|].
    destruct (_ >=? _)%Z; [inversion Hh; subst; lia|].
    destruct (_ >? _)%Z; [inversion Hh; subst; lia|].
    destruct (doWhileLoop _ _ _ _ _) as [rl sl] eqn:Hl.
    apply doWhileLoop_grows in Hl.
    assert (sl = s) by (destruct rl as [[] | e |]; now inversion Hh). subst sl. lia. }
  assert (Hlen : (1 <= List.length (evidence s))%nat) by lia.
  split; [lia|]. split; [exact Hlen|]. split; [|split].
  - rewrite He. destruct (List.length (evidence s)); [lia | reflexivity].
  - intros rep Hr. rewrite (Hrep rep Hr). cbn [toolResponse summary evidence_of status].
    split; [exact Hlen | apply verdict_pass; lia].
  - intros Hm ->. rewrite Hm in Hh.
    assert (Hcap : (iteration s2 >=? 0)%Z = true) by lia.
    rewrite Hcap in Hh. inversion Hh; subst. eexists. split; [reflexivity|].
    cbn [toolResponse summary evidence_of]. rewrite He.
    replace (List.length (evidence s)) with 1%nat by lia. reflexivity.
Qed.

(** *** The cycles of [while] *)

Lemma whileBody_continue_in_time p start s s' :
  whileBody p start s = (Ok Continue, s') ->
  elapsed start s' <= ELEMENT_ATTACHED_TIMEOUT tab.
Proof.
  rewrite whileBody_eq.
  destruct (evaluateCondition p s) as [[[|] | e |] s1]; try discriminate.
  destruct (runAction p s1) as [[[] | e |] s2]; try discriminate.
  cbv zeta. destruct (_ >? _)%Z eqn:Hgt; [discriminate|].
  intros H; inversion H; subst. lia.
Qed.

Lemma cycle_start_in_time p m start s0 s :
  elapsed start s0 <= ELEMENT_ATTACHED_TIMEOUT tab ->
  cycle_start p m start s0 s ->
  elapsed start s <= ELEMENT_ATTACHED_TIMEOUT tab.
Proof.
  intros H0. induction 1 as [|s s' _ _ _ Hb]; [exact H0|].
  eapply whileBody_continue_in_time; eassumption.
Qed.

(** A cycle start is a state the loop goes through: from there on, the loop
    entered in [s0] does what the loop entered in [s] does. *)
Lemma cycle_start_reached p m start s0 s :
  cycle_start p m start s0 s ->
  exists k, forall fuel,
    whileLoop p m start (k + fuel) s0 = whileLoop p m start fuel s.
Proof.
  induction 1 as [|s s' _ (k & IH) Hlt Hb].
  - now exists O.
  - exists (S k). intros fuel.
    replace (S k + fuel)%nat with (k + S fuel)%nat by lia.
    rewrite IH, whileLoop_S, Hb.
    now replace (iteration s <? m)%Z with true by lia.
Qed.

(** C5. In a [while] loop no cycle starts with the clock past the timeout,
    and a cycle that starts with the counter at [maxIterations] or beyond
    (or the clock past the timeout) does nothing at all: the condition is
    not evaluated and the action is not run. *)
Theorem while_guards_come_first p w s :
  0 <= ELEMENT_ATTACHED_TIMEOUT tab ->
  cycle_start p (maxIterations_of p) (Date_now tab w) (initial w) s ->
  elapsed (Date_now tab w) s <= ELEMENT_ATTACHED_TIMEOUT tab /\
  (maxIterations_of p <= iteration s
   \/ ELEMENT_ATTACHED_TIMEOUT tab < elapsed (Date_now tab w) s ->
   forall fuel,
     snd (whileLoop p (maxIterations_of p) (Date_now tab w) fuel s) = s).
Proof.
  intros HT Hs.
  assert (Hin : elapsed (Date_now tab w) s <= ELEMENT_ATTACHED_TIMEOUT tab).
  { eapply cycle_start_in_time; [|exact Hs].
    unfold elapsed. cbn [initial world]. lia. }
  split; [exact Hin|].
  intros [Hcap | Hlate] fuel; [|lia].
  destruct fuel as [|fuel]; [reflexivity|].
  rewrite whileLoop_S.
  now replace (iteration s <? maxIterations_of p)%Z with false by lia.
Qed.

(* ------------------------------------------------------------------ *)
(** ** The calls an invocation makes *)

Lemma runAction_block p s x s' :
  runAction p s = (Ok x, s') -> emits s s' (action_block p).
Proof.
  unfold runAction, bind, action_block, interaction_call.
  destruct (host_call _ _ s) as [rl s0] eqn:Hloc.
  apply host_call_spec in Hloc.
  destruct Hloc as [(loc & -> & Hd) | (e & -> & Hd)]; [|discriminate].
  assert (Hcall : forall c f, host_call (A := unit) c f s0 = (Ok x, s') ->
            emits s s' [Ev (CRefLocator (action_ref (action p))
                                        (action_element (action p))) None;
                        Ev c None]).
  { intros c f H. apply host_call_spec in H.
    destruct H as [(a & _ & H) | (e & He & _)]; [|discriminate].
    apply (emits_trans _ _ _ _ _ Hd H). }
  destruct (action_type (action p) =? "click"); [apply Hcall|].
  destruct (action_type (action p) =? "hover"); [apply Hcall|].
  destruct (action_type (action p) =? "fill").
  { destruct (action_value (action p)); [apply Hcall | discriminate]. }
  destruct (action_type (action p) =? "press").
  { destruct (action_value (action p)); [apply Hcall | discriminate]. }
  discriminate.
Qed.

Lemma evaluateCondition_block p s b s' :
  evaluateCondition p s = (Ok b, s') -> emits s s' (check_block p).
Proof.
  unfold evaluateCondition, check_block, check_call.
  destruct (until (loop p)) as [u|].
  2:{ unfold ret. intros H; inversion H; subst. apply emits_refl. }
  unfold bind.
  destruct (host_call _ _ s) as [rl s0] eqn:Hloc.
  apply host_call_spec in Hloc.
  destruct Hloc as [(loc & -> & Hd) | (e & -> & Hd)]; [|discriminate].
  assert (Hcall : forall c f,
            match host_call (A := bool) c f s0 with
            | (Ok a, s1) => (Ok (if negate u then negb a else a), s1)
            | (Throw e, s1) => (Throw e, s1)
            | (OutOfFuel, s1) => (OutOfFuel, s1)
            end = (Ok b, s') ->
            emits s s' [Ev (CRefLocator (until_ref u) (until_element u)) None;
                        Ev c None]).
  { intros c f H. destruct (host_call c f s0) as [rc s1] eqn:Hc.
    apply host_call_spec in Hc.
    destruct Hc as [(a & -> & Hc) | (e & -> & _)]; [|discriminate].
    inversion H; subst. apply (emits_trans _ _ _ _ _ Hd Hc). }
  cbv zeta.
  destruct (_ =? "toBeVisible"); [apply Hcall|].
  destruct (_ =? "toBeHidden"); [apply Hcall|].
  destruct (_ =? "toBeEnabled"); [apply Hcall|].
  destruct (_ =? "toBeDisabled"); [apply Hcall|].
  discriminate.
Qed.

(** An invocation that returns a report passed the two checks and ran its
    loop to a normal end. *)
Lemma handle_Ok_inv fuel p w rep s :
  handle fuel p w = (Ok rep, s) ->
  validate p (initial w) = (Ok tt, initial w) /\
  loopStart p (maxIterations_of p) (Date_now tab w) fuel (initial w) = (Ok tt, s) /\
  rep = toolResponse p (iteration s) (evidence s) /\
  iteration s = Z.of_nat (List.length (evidence s)).
Proof.
  intros Hh. destruct (handle_post _ _ _ _ _ Hh) as (([Hi _ _] & _) & Hrep).
  rewrite handle_eq in Hh.
  destruct (validate_cases p (initial w)) as [Hv | (e & Hv)]; rewrite Hv in Hh;
    [|discriminate].
  split; [exact Hv|].
  destruct (loopStart _ _ _ _ _) as [[[] | e |] s1]; try discriminate.
  inversion Hh; subst. repeat split. exact Hi.
Qed.

Lemma repeat_snoc {A} (x : A) k : (repeat x k ++ [x])%list = repeat x (S k).
Proof. induction k as [|k IH]; [reflexivity|]. cbn. now rewrite IH. Qed.

Lemma forLoop_calls p n fuel : forall s s',
  forLoop p fuel n s = (Ok tt, s') ->
  exists k,
    trace s' = (trace s ++ List.concat (repeat (for_cycle p) k))%list /\
    iteration s' = iteration s + Z.of_nat k.
Proof.
  induction fuel as [|fuel IH]; intros s s'; [discriminate|].
  rewrite forLoop_S. destruct (iteration s <? n)%Z.
  - destruct (runAction p s) as [[[] | e |] s1] eqn:Ha; try discriminate.
    apply runAction_block in Ha. destruct Ha as (Hi & _ & Ht).
    intros H. destruct (IH _ _ H) as (k & Hk & Hik).
    exists (S k). cbn [completed trace iteration] in Hk, Hik.
    split; [|lia].
    rewrite Hk, Ht. cbn [repeat List.concat]. unfold for_cycle, pause.
    now rewrite <- !app_assoc.
  - intros H; inversion H; subst. exists O. cbn. split; [now rewrite app_nil_r | lia].
Qed.

Lemma whileLoop_calls p m start fuel : forall s s',
  whileLoop p m start fuel s = (Ok tt, s') ->
  exists k tail,
    trace s' = (trace s
                ++ List.concat (repeat (while_cycle p) k)
                ++ tail)%list /\
    iteration s' = iteration s + Z.of_nat k /\
    (tail = [] \/ tail = check_block p).
Proof.
  induction fuel as [|fuel IH]; intros s s'; [discriminate|].
  rewrite whileLoop_S. destruct (iteration s <? m)%Z.
  - rewrite whileBody_eq.
    destruct (evaluateCondition p s) as [[[|] | e |] s1] eqn:Hc; try discriminate.
    + apply evaluateCondition_block in Hc. destruct Hc as (Hi & _ & Ht).
      intros H; inversion H; subst. exists O, (check_block p).
      cbn. split; [exact Ht|]. split; [lia | now right].
    + apply evaluateCondition_block in Hc. destruct Hc as (Hi1 & _ & Ht1).
      destruct (runAction p s1) as [[[] | e |] s2] eqn:Ha; try discriminate.
      apply runAction_block in Ha. destruct Ha as (Hi2 & _ & Ht2).
      cbv zeta.
      assert (Hone : trace (completed p "while-loop" 100 s2)
                     = (trace s ++ while_cycle p)%list).
      { cbn [completed trace]. rewrite Ht2, Ht1. unfold while_cycle, pause.
        now rewrite <- !app_assoc. }
      destruct (_ >? _)%Z.
      * intros H; inversion H; subst. exists 1%nat, [].
        cbn [repeat List.concat]. rewrite !app_nil_r.
        split; [exact Hone|]. cbn [completed iteration]. split; [lia | now left].
      * intros H. destruct (IH _ _ H) as (k & tail & Hk & Hik & Htail).
        exists (S k), tail. cbn [completed iteration] in Hik.
        split; [|split; [lia | exact Htail]].
        rewrite Hk, Hone. cbn [repeat List.concat]. unfold while_cycle. now rewrite <- !app_assoc.
  - intros H; inversion H; subst. exists O, []. cbn.
    split; [now rewrite app_nil_r|]. split; [lia | now left].
Qed.

Lemma doWhileLoop_calls p m start fuel : forall s s',
  doWhileLoop p m start fuel s = (Ok tt, s') ->
  exists k,
    trace s' = (trace s
                ++ List.concat (repeat (do_while_cycle p)
                                  (S k)))%list /\
    iteration s' = iteration s + Z.of_nat (S k).
Proof.
  induction fuel as [|fuel IH]; intros s s'; [discriminate|].
  rewrite doWhileLoop_S, doWhileBody_eq.
  destruct (runAction p s) as [[[] | e |] s1] eqn:Ha; try discriminate.
  apply runAction_block in Ha. destruct Ha as (Hi1 & _ & Ht1).
  destruct (evaluateCondition p _) as [[b | e |] s2] eqn:Hc; try discriminate.
  apply evaluateCondition_block in Hc. destruct Hc as (Hi2 & _ & Ht2).
  cbn [completed trace iteration] in Hi2, Ht2.
  assert (Hone : trace s2
                 = (trace s ++ do_while_cycle p)%list).
  { rewrite Ht2, Ht1. unfold do_while_cycle, pause. now rewrite <- !app_assoc. }
  assert (Hstop : (Ok tt, s2) = (Ok tt, s') ->
            exists k,
              trace s' = (trace s
                ++ List.concat (repeat (do_while_cycle p)
                                  (S k)))%list /\
              iteration s' = iteration s + Z.of_nat (S k)).
  { intros H; inversion H; subst. exists O. cbn [repeat List.concat].
    rewrite app_nil_r. split; [exact Hone | lia]. }
  destruct b; [exact Hstop|].
  destruct (_ >=? _)%Z; [exact Hstop|].
  destruct (_ >? _)%Z; [exact Hstop|].
  intros H. destruct (IH _ _ H) as (k & Hk & Hik).
  exists (S k). split; [|lia].
  rewrite Hk, Hone. cbn [repeat List.concat]. unfold do_while_cycle. now rewrite <- !app_assoc.
Qed.

(** X1. The calls of a [for] loop that returns a report: per record, the
    target is located, the interaction is made, and 300 ms are waited; the
    condition, if one was given, is never looked at. *)
Theorem for_call_sequence fuel p w rep s :
  loop_type (loop p) = "for" ->
  handle fuel p w = (Ok rep, s) ->
  trace s = List.concat (repeat (for_cycle p)
                           (List.length (evidence_of (summary rep)))).
Proof.
  intros Ht Hh. destruct (handle_Ok_inv _ _ _ _ _ Hh) as (_ & Hl & -> & Hi).
  cbn [toolResponse summary evidence_of].
  unfold loopStart in Hl. rewrite Ht in Hl. cbn [String.eqb Ascii.eqb Bool.eqb] in Hl.
  destruct (iterations (loop p)) as [n|].
  - destruct (forLoop_calls _ _ _ _ _ Hl) as (k & Hk & Hik).
    cbn [initial trace iteration] in Hk, Hik. cbn [app] in Hk.
    replace (List.length (evidence s)) with k by lia. exact Hk.
  - inversion Hl; subst. reflexivity.
Qed.

(** X2. The calls of a [while] loop that returns a report: per record, the
    condition is located and checked, the target is located, the interaction
    is made, and 100 ms are waited; after the last record comes at most one
    more check of the condition (the one that found it met). *)
Theorem while_call_sequence fuel p w rep s :
  loop_type (loop p) = "while" ->
  handle fuel p w = (Ok rep, s) ->
  exists tail,
    trace s = (List.concat (repeat (while_cycle p)
                              (List.length (evidence_of (summary rep))))
               ++ tail)%list /\
    (tail = [] \/ tail = check_block p).
Proof.
  intros Ht Hh. destruct (handle_Ok_inv _ _ _ _ _ Hh) as (_ & Hl & -> & Hi).
  cbn [toolResponse summary evidence_of].
  unfold loopStart in Hl. rewrite Ht in Hl. cbn [String.eqb Ascii.eqb Bool.eqb] in Hl.
  destruct (whileLoop_calls _ _ _ _ _ _ Hl) as (k & tail & Hk & Hik & Htail).
  cbn [initial trace iteration] in Hk, Hik. cbn [app] in Hk.
  exists tail. replace (List.length (evidence s)) with k by lia. now split.
Qed.

(** X3. The calls of a [do-while] loop that returns a report: per record,
    the target is located, the interaction is made, 100 ms are waited, and
    the condition is located and checked; there is at least one record. *)
Theorem do_while_call_sequence fuel p w rep s :
  loop_type (loop p) = "do-while" ->
  handle fuel p w = (Ok rep, s) ->
  trace s = List.concat (repeat (do_while_cycle p)
                           (List.length (evidence_of (summary rep)))) /\
  (1 <= List.length (evidence_of (summary rep)))%nat.
Proof.
  intros Ht Hh. destruct (handle_Ok_inv _ _ _ _ _ Hh) as (_ & Hl & -> & Hi).
  cbn [toolResponse summary evidence_of].
  unfold loopStart in Hl. rewrite Ht in Hl. cbn [String.eqb Ascii.eqb Bool.eqb] in Hl.
  destruct (doWhileLoop_calls _ _ _ _ _ _ Hl) as (k & Hk & Hik).
  cbn [initial trace iteration] in Hk, Hik. cbn [app] in Hk.
  replace (List.length (evidence s)) with (S k) by lia. split; [exact Hk | lia].
Qed.

(* ------------------------------------------------------------------ *)
(** ** The budget of interactions *)

Lemma done_le_called l :
  (count_if action_done l <= count_if interaction_called l)%nat.
Proof.
  unfold count_if. induction l as [|ev l IH]; [reflexivity|].
  cbn [filter]. unfold action_done at 1, interaction_called at 1.
  destruct (is_interaction (ev_call ev)); cbn [andb].
  - destruct (returned ev); cbn [List.length]; lia.
  - exact IH.
Qed.

Lemma call_shape_called b {A} (r : Result A) d :
  call_shape b r d -> (count_if interaction_called d <= 1)%nat.
Proof.
  destruct r as [a | e |]; cbn; [| |contradiction].
  - intros (Hc & Hn). rewrite (clean_called_done _ Hc), Hn. destruct b; lia.
  - intros ((pre & Hpre & Hd) & Hn).
    destruct Hd as [-> | (c & ->)].
    + rewrite (clean_called_done _ Hpre), Hn. lia.
    + rewrite count_if_app in Hn |- *.
      rewrite (clean_called_done _ Hpre).
      unfold count_if at 2. cbn [filter].
      destruct (interaction_called _); cbn [List.length]; lia.
Qed.

Lemma runAction_called p s r s' :
  runAction p s = (r, s') ->
  iteration s' = iteration s /\ called s <= called s' <= called s + 1.
Proof.
  intros H. apply runAction_spec in H. destruct H as (d & (Hi & _ & Ht) & Hs).
  apply call_shape_called in Hs. split; [exact Hi|].
  unfold called. rewrite Ht, count_if_app. lia.
Qed.

Lemma evaluateCondition_called p s r s' :
  evaluateCondition p s = (r, s') ->
  iteration s' = iteration s /\ called s' = called s.
Proof.
  intros H. apply evaluateCondition_spec in H.
  destruct H as (d & (Hi & _ & Ht) & Hu & _). split; [exact Hi|].
  unfold called. now rewrite Ht, count_if_app, (untouched_not_called _ Hu), Nat.add_0_r.
Qed.

Lemma completed_called p what ms s :
  called (completed p what ms s) = called s
  /\ iteration (completed p what ms s) = iteration s + 1.
Proof.
  split; [|reflexivity]. unfold called. cbn [completed trace].
  rewrite count_if_app. cbn. lia.
Qed.

Lemma forLoop_budget p n fuel : forall s r s',
  called s <= iteration s ->
  forLoop p fuel n s = (r, s') ->
  called s' <= Z.max n (iteration s).
Proof.
  induction fuel as [|fuel IH]; intros s r s' Hs.
  - cbn. unfold diverge. intros H; inversion H; subst. lia.
  - rewrite forLoop_S. destruct (iteration s <? n)%Z eqn:Hlt.
    + destruct (runAction p s) as [ra s1] eqn:Ha.
      destruct (runAction_called _ _ _ _ Ha) as (Hi & Hc).
      destruct (completed_called p "for-loop" 300 s1) as (Hcc & Hci).
      destruct ra as [[] | e |]; try (intros H; inversion H; subst; lia).
      intros H. apply IH in H; lia.
    + intros H; inversion H; subst. lia.
Qed.

Lemma whileLoop_budget p m start fuel : forall s r s',
  called s <= iteration s ->
  whileLoop p m start fuel s = (r, s') ->
  called s' <= Z.max m (iteration s).
Proof.
  induction fuel as [|fuel IH]; intros s r s' Hs.
  - cbn. unfold diverge. intros H; inversion H; subst. lia.
  - rewrite whileLoop_S. destruct (iteration s <? m)%Z eqn:Hlt.
    + rewrite whileBody_eq.
      destruct (evaluateCondition p s) as [rc s1] eqn:Hc.
      destruct (evaluateCondition_called _ _ _ _ Hc) as (Hi1 & Hc1).
      destruct rc as [[|] | e |]; try (intros H; inversion H; subst; lia).
      destruct (runAction p s1) as [ra s2] eqn:Ha.
      destruct (runAction_called _ _ _ _ Ha) as (Hi2 & Hc2).
      destruct (completed_called p "while-loop" 100 s2) as (Hcc & Hci).
      destruct ra as [[] | e |]; try (intros H; inversion H; subst; lia).
      cbv zeta. destruct (_ >? _)%Z; [intros H; inversion H; subst; lia|].
      intros H. apply IH in H; lia.
    + intros H; inversion H; subst. lia.
Qed.

Lemma doWhileLoop_budget p m start fuel : forall s r s',
  called s <= iteration s ->
  doWhileLoop p m start fuel s = (r, s') ->
  called s' <= Z.max m (iteration s + 1).
Proof.
  induction fuel as [|fuel IH]; intros s r s' Hs.
  - cbn. unfold diverge. intros H; inversion H; subst. lia.
  - rewrite doWhileLoop_S, doWhileBody_eq.
    destruct (runAction p s) as [ra s1] eqn:Ha.
    destruct (runAction_called _ _ _ _ Ha) as (Hi1 & Hc1).
    destruct (completed_called p "do-while" 100 s1) as (Hcc & Hci).
    destruct ra as [[] | e |]; try (intros H; inversion H; subst; lia).
    destruct (evaluateCondition p _) as [rc s2] eqn:Hc.
    destruct (evaluateCondition_called _ _ _ _ Hc) as (Hi2 & Hc2).
    destruct rc as [[|] | e |]; try (intros H; inversion H; subst; lia).
    destruct (_ >=? _)%Z eqn:Hge; [intros H; inversion H; subst; lia|].
    destruct (_ >? _)%Z; [intros H; inversion H; subst; lia|].
    intros H. apply IH in H; lia.
Qed.

(** X4. Whatever the host does and however the invocation ends, no more
    interactions are called, and no more records made, than the budget of
    the loop: [iterations] for [for], [maxIterations] for [while], and
    [maxIterations] but at least one for [do-while]. *)
Theorem within_budget fuel p w r s :
  handle fuel p w = (r, s) ->
  called s <= action_budget p /\
  Z.of_nat (List.length (evidence s)) <= action_budget p.
Proof.
  intros Hh.
  destruct (handle_post _ _ _ _ _ Hh) as (([_ _ Hd] & _) & _).
  assert (Hc : called s <= action_budget p).
  { rewrite handle_eq in Hh. unfold action_budget.
    assert (H0 : called (initial w) <= iteration (initial w)) by (cbn; lia).
    destruct (validate_cases p (initial w)) as [Hv | (e & Hv)]; rewrite Hv in Hh.
    - destruct (loopStart _ _ _ _ _) as [rl s1] eqn:Hl.
      assert (s1 = s) by (destruct rl as [[] | e |]; now inversion Hh). subst s1.
      unfold loopStart in Hl.
      destruct (loop_type (loop p) =? "for").
      { destruct (iterations (loop p)) as [n|].
        - apply forLoop_budget in Hl; [|exact H0]. cbn [initial iteration] in Hl. lia.
        - inversion Hl; subst. cbn. lia. }
      destruct (loop_type (loop p) =? "while").
      { apply whileLoop_budget in Hl; [|exact H0]. cbn [initial iteration] in Hl. lia. }
      destruct (loop_type (loop p) =? "do-while").
      { apply doWhileLoop_budget in Hl; [|exact H0]. cbn [initial iteration] in Hl. lia. }
      inversion Hl; subst. cbn. lia.
    - inversion Hh; subst.
      destruct (loop_type (loop p) =? "for");
        [destruct (iterations (loop p))|];
        repeat destruct (loop_type (loop p) =? _); cbn; lia. }
  split; [exact Hc|].
  pose proof (done_le_called (trace s)) as Hle. unfold called in Hc. lia.
Qed.

(* ------------------------------------------------------------------ *)
(** ** Fuel *)

Lemma forLoop_more p n fuel : forall s fuel',
  fst (forLoop p fuel n s) <> OutOfFuel -> (fuel <= fuel')%nat ->
  forLoop p fuel' n s = forLoop p fuel n s.
Proof.
  induction fuel as [|fuel IH]; intros s fuel' Hne Hle; [now cbn in Hne|].
  destruct fuel' as [|fuel']; [lia|].
  rewrite forLoop_S in Hne. rewrite !forLoop_S.
  destruct (iteration s <? n)%Z; [|reflexivity].
  destruct (runAction p s) as [[[] | e |] s1]; try reflexivity.
  apply IH; [exact Hne | lia].
Qed.

Lemma whileLoop_more p m start fuel : forall s fuel',
  fst (whileLoop p m start fuel s) <> OutOfFuel -> (fuel <= fuel')%nat ->
  whileLoop p m start fuel' s = whileLoop p m start fuel s.
Proof.
  induction fuel as [|fuel IH]; intros s fuel' Hne Hle; [now cbn in Hne|].
  destruct fuel' as [|fuel']; [lia|].
  rewrite whileLoop_S in Hne. rewrite !whileLoop_S.
  destruct (iteration s <? m)%Z; [|reflexivity].
  destruct (whileBody p start s) as [[[|] | e |] s1]; try reflexivity.
  apply IH; [exact Hne | lia].
Qed.

Lemma doWhileLoop_more p m start fuel : forall s fuel',
  fst (doWhileLoop p m start fuel s) <> OutOfFuel -> (fuel <= fuel')%nat ->
  doWhileLoop p m start fuel' s = doWhileLoop p m start fuel s.
Proof.
  induction fuel as [|fuel IH]; intros s fuel' Hne Hle; [now cbn in Hne|].
  destruct fuel' as [|fuel']; [lia|].
  rewrite doWhileLoop_S in Hne. rewrite !doWhileLoop_S.
  destruct (doWhileBody p m start s) as [[[|] | e |] s1]; try reflexivity.
  apply IH; [exact Hne | lia].
Qed.

Lemma loopStart_more p m start fuel fuel' s :
  fst (loopStart p m start fuel s) <> OutOfFuel -> (fuel <= fuel')%nat ->
  loopStart p m start fuel' s = loopStart p m start fuel s.
Proof.
  unfold loopStart.
  destruct (loop_type (loop p) =? "for").
  { destruct (iterations (loop p)); [apply forLoop_more | reflexivity]. }
  destruct (loop_type (loop p) =? "while"); [apply whileLoop_more|].
  destruct (loop_type (loop p) =? "do-while"); [apply doWhileLoop_more|].
  reflexivity.
Qed.

Lemma handle_more fuel fuel' p w :
  fst (handle fuel p w) <> OutOfFuel -> (fuel <= fuel')%nat ->
  handle fuel' p w = handle fuel p w.
Proof.
  rewrite !handle_eq.
  destruct (validate_cases p (initial w)) as [-> | (e & ->)]; [|reflexivity].
  intros Hne Hle. rewrite (loopStart_more _ _ _ fuel fuel'); [reflexivity | | exact Hle].
  destruct (loopStart _ _ _ fuel _) as [[[] | e |] s]; cbn in *; congruence.
Qed.

(** X5. Every invocation comes to an end, whatever the host does: with
    [fuel_needed p] units of fuel (one per cycle that [iterations], or
    [maxIterations], lets in, and one more) the handler returns or throws,
    and any further fuel leaves the outcome and the final state as they
    are. *)
Theorem handle_ends fuel p w :
  (fuel_needed p <= fuel)%nat ->
  fst (handle fuel p w) <> OutOfFuel /\
  handle fuel p w = handle (fuel_needed p) p w.
Proof.
  intros Hf. split; [now apply handle_terminates|].
  apply handle_more; [|exact Hf]. apply handle_terminates. lia.
Qed.

(* ------------------------------------------------------------------ *)
(** ** The condition *)

(** X6. Flipping [negate] flips the answer of [evaluateCondition] and
    nothing else: the same calls are made, the same world is reached, and an
    error is thrown exactly when it was thrown before. *)
Theorem negate_flips p s :
  until (loop p) <> None ->
  evaluateCondition (negated p) s
  = (match fst (evaluateCondition p s) with
     | Ok b => Ok (negb b)
     | Throw e => Throw e
     | OutOfFuel => OutOfFuel
     end,
     snd (evaluateCondition p s)).
Proof.
  intros Hu. unfold evaluateCondition, negated. cbn [loop until].
  destruct (until (loop p)) as [u|]; [clear Hu | congruence].
  cbn [option_map until_ref until_element assertion negate]. unfold bind.
  destruct (host_call _ _ s) as [[loc | e |] s0]; [|reflexivity..].
  cbv zeta.
  set (m := if assertionType (assertion u) =? "toBeVisible" then _ else _).
  destruct (m s0) as [[b | e |] s1]; [|reflexivity..].
  unfold ret. cbn [fst snd]. destruct (negate u), b; reflexivity.
Qed.



(* ------------------------------------------------------------------ *)
(** ** The action *)




(* ------------------------------------------------------------------ *)
(** ** The timeout and the default cap *)

(** What the loop does from a cycle start within one unit of fuel, the
    invocation does. *)
Lemma while_ends_from_cycle fuel p w s s' :
  loop_type (loop p) = "while" ->
  cycle_start p (maxIterations_of p) (Date_now tab w) (initial w) s ->
  whileLoop p (maxIterations_of p) (Date_now tab w) 1 s = (Ok tt, s') ->
  (fuel_needed p <= fuel)%nat ->
  loopStart p (maxIterations_of p) (Date_now tab w) fuel (initial w) = (Ok tt, s').
Proof.
  intros Ht Hs Hone Hf. unfold loopStart. rewrite Ht.
  cbn [String.eqb Ascii.eqb Bool.eqb].
  destruct (cycle_start_reached _ _ _ _ _ Hs) as (k & Hk).
  assert (Hfuel : fst (whileLoop p (maxIterations_of p) (Date_now tab w) fuel (initial w))
                  <> OutOfFuel).
  { apply whileLoop_fuel. unfold fuel_needed in Hf. rewrite Ht in Hf.
    cbn [String.eqb Ascii.eqb Bool.eqb] in Hf.
    cbn [initial iteration]. rewrite Z.sub_0_r. lia. }
  rewrite <- (whileLoop_more _ _ _ fuel (initial w) (Nat.max fuel (k + 1)))
    by (assumption || lia).
  rewrite (whileLoop_more _ _ _ (k + 1) (initial w) (Nat.max fuel (k + 1))).
  - rewrite Hk. exact Hone.
  - rewrite Hk, Hone. discriminate.
  - lia.
Qed.

(** X9. The timeout ends a [while] loop without an error.  If a cycle of the
    loop completes its iteration (condition not met, action done, 100 ms
    waited) and the clock is then more than [ELEMENT_ATTACHED_TIMEOUT] past
    [startTime], the invocation returns a report with the records made so
    far, that of this iteration included, and says ['pass'], whatever
    [maxIterations] would still have allowed. *)
Theorem timeout_ends_while fuel p w s s1 s2 :
  loop_type (loop p) = "while" ->
  until (loop p) <> None ->
  cycle_start p (maxIterations_of p) (Date_now tab w) (initial w) s ->
  iteration s < maxIterations_of p ->
  evaluateCondition p s = (Ok false, s1) ->
  runAction p s1 = (Ok tt, s2) ->
  ELEMENT_ATTACHED_TIMEOUT tab
    < elapsed (Date_now tab w) (completed p "while-loop" 100 s2) ->
  (fuel_needed p <= fuel)%nat ->
  exists rep,
    handle fuel p w = (Ok rep, completed p "while-loop" 100 s2) /\
    total (summary rep) = iteration s + 1 /\
    evidence_of (summary rep)
    = (evidence s ++ [iteration_record "while-loop" (action p) (iteration s + 1)])%list /\
    status (summary rep) = "pass".
Proof.
  intros Ht Hsome Hs Hlt Hc Ha Hlate Hf.
  set (m := maxIterations_of p) in *. set (start := Date_now tab w) in *.
  set (s3 := completed p "while-loop" 100 s2) in *.
  assert (Hu : exists u, until (loop p) = Some u).
  { destruct (until (loop p)) as [u|]; [now exists u | congruence]. }
  destruct Hu as (u & Hu).
  assert (Hone : whileLoop p m start 1 s = (Ok tt, s3)).
  { rewrite whileLoop_S, whileBody_eq, Hc, Ha. cbv zeta. fold s3.
    replace (iteration s <? m)%Z with true by lia.
    now replace (elapsed start s3 >? ELEMENT_ATTACHED_TIMEOUT tab)%Z with true by lia. }
  pose proof (runAction_keeps _ _ _ _ Ha) as Hi2.
  pose proof (evaluateCondition_keeps _ _ _ _ Hc) as Hi1.
  pose proof (runAction_spec _ _ _ _ Ha) as (d2 & (_ & He2 & _) & _).
  pose proof (evaluateCondition_spec _ _ _ _ Hc) as (d1 & (_ & He1 & _) & _).
  assert (Hl : loopStart p m start fuel (initial w) = (Ok tt, s3)).
  { apply (while_ends_from_cycle fuel p w s s3 Ht Hs Hone Hf). }
  pose proof (loopStart_post _ _ _ _ _ _ _ (initial_post _ _ w) Hl) as ([Hi _ _] & _).
  rewrite (handle_valid fuel p w)
    by (eapply validate_until; [left|]; eassumption).
  fold m start. rewrite Hl. eexists. split; [reflexivity|].
  cbn [toolResponse summary total status evidence_of].
  assert (Hit : iteration s3 = iteration s + 1).
  { unfold s3. cbn [completed iteration]. lia. }
  split; [exact Hit|]. split.
  - unfold s3. cbn [completed evidence]. now rewrite He2, He1, Hi2, Hi1.
  - apply verdict_pass. rewrite Hi. unfold s3. cbn [completed evidence].
    rewrite length_app. cbn. lia.
Qed.

(** X12. A [while] loop stops as soon as its condition is met, at whatever
    cycle: if the condition evaluates to true at the start of a cycle, the
    action is not run again and the invocation returns a report with exactly
    the records made before that cycle. *)
Theorem condition_ends_while fuel p w s s1 :
  loop_type (loop p) = "while" ->
  until (loop p) <> None ->
  cycle_start p (maxIterations_of p) (Date_now tab w) (initial w) s ->
  iteration s < maxIterations_of p ->
  evaluateCondition p s = (Ok true, s1) ->
  (fuel_needed p <= fuel)%nat ->
  exists rep,
    handle fuel p w = (Ok rep, s1) /\
    total (summary rep) = iteration s /\
    evidence_of (summary rep) = evidence s /\
    count_if interaction_called (trace s1) = count_if interaction_called (trace s).
Proof.
  intros Ht Hsome Hs Hlt Hc Hf.
  destruct (until (loop p)) as [u|] eqn:Hu; [clear Hsome | congruence].
  assert (Hone : whileLoop p (maxIterations_of p) (Date_now tab w) 1 s = (Ok tt, s1)).
  { rewrite whileLoop_S, whileBody_eq, Hc.
    now replace (iteration s <? maxIterations_of p)%Z with true by lia. }
  pose proof (while_ends_from_cycle _ _ _ _ _ Ht Hs Hone Hf) as Hl.
  pose proof (evaluateCondition_spec _ _ _ _ Hc) as (d & (Hi & He & Htr) & Hun & _).
  rewrite (handle_valid fuel p w)
    by (eapply validate_until; [left|]; eassumption).
  rewrite Hl. eexists. split; [reflexivity|].
  cbn [toolResponse summary total evidence_of].
  split; [exact Hi|]. split; [exact He|].
  now rewrite Htr, count_if_app, (untouched_not_called _ Hun), Nat.add_0_r.
Qed.

(** X10. Without [limits], or with [limits] that give no [maxIterations],
    the cap is 20: a [while] or [do-while] loop in whose run, up to that
    cap, the condition is never met, nothing fails and the timeout is not
    breached, makes exactly 20 records and calls exactly 20 interactions. *)
Theorem default_cap_is_20 fuel p w :
  limits p = None \/ (exists l, limits p = Some l /\ maxIterations l = None) ->
  until (loop p) <> None ->
  (21 <= fuel)%nat ->
  (loop_type (loop p) = "while" /\
   unhindered_while p (Date_now tab w) 20 (initial w)) \/
  (loop_type (loop p) = "do-while" /\
   unhindered_do_while p (Date_now tab w) 20 (initial w)) ->
  exists rep s,
    handle fuel p w = (Ok rep, s) /\
    List.length (evidence_of (summary rep)) = 20%nat /\
    count_if interaction_called (trace s) = 20%nat.
Proof.
  intros Hlim Hu Hf Hrun.
  assert (Hm : maxIterations_of p = 20).
  { unfold maxIterations_of. destruct Hlim as [-> | (l & -> & ->)]; reflexivity. }
  destruct (until (loop p)) as [u|] eqn:Hu'; [clear Hu | congruence].
  assert (Hl : exists s, loopStart p (maxIterations_of p) (Date_now tab w) fuel (initial w)
                         = (Ok tt, s) /\ iteration s = 20).
  { unfold loopStart. rewrite Hm. destruct Hrun as [(Ht & Hrun) | (Ht & Hrun)];
      rewrite Ht; cbn [String.eqb Ascii.eqb Bool.eqb].
    - destruct (whileLoop_runs p 20 (Date_now tab w) (initial w) eq_refl Hrun fuel O)
        as (s & Hl & Hi).
      { cbn. lia. }
      exists s. split; [exact Hl | cbn in Hi; lia].
    - destruct (doWhileLoop_runs p 20 (Date_now tab w) (initial w) eq_refl Hrun fuel O)
        as (s & Hl & Hi).
      { lia. }
      { cbn. lia. }
      { now left. }
      exists s. split; [exact Hl | cbn in Hi; lia]. }
  destruct Hl as (s & Hl & Hi).
  assert (Hv : validate p (initial w) = (Ok tt, initial w)).
  { eapply validate_until; [|eassumption].
    destruct Hrun as [(Ht & _) | (Ht & _)]; [now left | now right]. }
  destruct (handle_completes fuel p w s 20 Hv Hl Hi) as (Hh & Hd & Hc).
  eexists; exists s. split; [exact Hh|].
  cbn [toolResponse summary evidence_of]. rewrite numbered_length.
  split; [reflexivity | exact Hc].
Qed.

(* ------------------------------------------------------------------ *)
(** ** What the records say *)

Lemma numbered_nth_record what a n i d :
  (i < n)%nat ->
  nth i (numbered what a n) d = iteration_record what a (Z.of_nat i + 1).
Proof.
  intros Hi. unfold numbered.
  rewrite nth_indep with (d' := iteration_record what a (Z.of_nat 0))
    by now rewrite length_map, length_seq.
  rewrite (map_nth (fun i => iteration_record what a (Z.of_nat i))).
  rewrite seq_nth by assumption. f_equal. lia.
Qed.

(** X11. A report echoes the action and the loop it was asked for, and each
    of its records carries that same action and the message
    ["Performed <what> iteration <n>"], where [<what>] is ["for-loop"],
    ["while-loop"] or ["do-while"] by discipline and [<n>] is the number of
    the record in decimal. *)
Theorem records_carry_the_action fuel p w rep s :
  handle fuel p w = (Ok rep, s) ->
  report_action rep = action p /\
  report_loop rep = loop p /\
  forall i d,
    (i < List.length (evidence_of (summary rep)))%nat ->
    ev_action (nth i (evidence_of (summary rep)) d) = action p /\
    ev_message (nth i (evidence_of (summary rep)) d)
    = "Performed "
        ++ (if loop_type (loop p) =? "for" then "for-loop"
            else if loop_type (loop p) =? "while" then "while-loop"
            else "do-while")
        ++ " iteration " ++ string_of_number (Z.of_nat i + 1).
Proof.
  intros Hh. destruct (handle_post _ _ _ _ _ Hh) as (([_ He _] & _) & Hrep).
  rewrite (Hrep rep eq_refl). cbn [toolResponse report_action report_loop summary evidence_of].
  split; [reflexivity|]. split; [reflexivity|].
  intros i d Hi. rewrite He. rewrite numbered_nth_record by exact Hi.
  split; reflexivity.
Qed.

(* ------------------------------------------------------------------ *)
(** ** A loop that lets no cycle in *)

(** X13. A [for] loop with [iterations <= 0] and a [while] loop with
    [maxIterations <= 0] call nothing at all on the host (the condition of
    the [while] loop is not even evaluated once) and return a report with no
    records that says ['fail']. *)
Theorem no_cycle_no_call fuel p w :
  (0 < fuel)%nat ->
  (loop_type (loop p) = "for" /\ exists n, iterations (loop p) = Some n /\ n <= 0) \/
  (loop_type (loop p) = "while" /\ until (loop p) <> None /\ maxIterations_of p <= 0) ->
  exists rep s,
    handle fuel p w = (Ok rep, s) /\
    trace s = [] /\ world s = w /\
    evidence_of (summary rep) = [] /\
    status (summary rep) = "fail".
Proof.
  intros Hf H. destruct fuel as [|fuel]; [lia|].
  assert (Hrun : validate p (initial w) = (Ok tt, initial w) /\
            loopStart p (maxIterations_of p) (Date_now tab w) (S fuel) (initial w)
            = (Ok tt, initial w)).
  { destruct H as [(Ht & n & Hn & Hle) | (Ht & Hu & Hle)].
    - split; [eapply validate_for; eassumption|].
      unfold loopStart. rewrite Ht, Hn. cbn [String.eqb Ascii.eqb Bool.eqb].
      rewrite forLoop_S. cbn [initial iteration].
      now replace (0 <? n)%Z with false by lia.
    - destruct (until (loop p)) as [u|] eqn:Hu'; [|congruence].
      split; [eapply validate_until; [left|]; eassumption|].
      unfold loopStart. rewrite Ht. cbn [String.eqb Ascii.eqb Bool.eqb].
      rewrite whileLoop_S. cbn [initial iteration].
      now replace (0 <? maxIterations_of p)%Z with false by lia. }
  destruct Hrun as (Hv & Hl).
  rewrite (handle_valid _ _ _ Hv), Hl. do 2 eexists.
  split; [reflexivity|]. repeat split.
Qed.

End Engine.

(* ------------------------------------------------------------------ *)
(** ** The claims on a page *)

Arguments world {tab} s.
Arguments trace {tab} s.
Arguments iteration {tab} s.
Arguments evidence {tab} s.
Arguments always_succeeds {tab A} m.
Arguments always_yields {tab A} m a.

Import Page.

(** Runs the invocation in the goal and puts its outcome in place of it. *)
Ltac evaluate_run r s H :=
  match goal with
  | |- context [handle ?t ?f ?p ?w] =>
      destruct (handle t f p w) as [r s] eqn:H;
      let Hv := fresh "Hv" in
      pose proof H as Hv; vm_compute in Hv; inversion Hv; subst r s; clear Hv
  end.

(** Checks an unhindered run of at most [n] cycles, cycle by cycle. *)
Tactic Notation "check_cycles" integer(n) :=
  let k := fresh "k" in
  let Hk := fresh "Hk" in
  intros k Hk;
  do n (destruct k as [|k];
        [cbv zeta;
         split; [eexists; vm_compute; reflexivity|];
         split; [eexists; vm_compute; reflexivity|];
         intros _; vm_compute; discriminate |]);
  exfalso; lia.

Lemma frozen_action_succeeds visible timeout p :
  action_type (action p) = "click" ->
  always_succeeds (runAction (frozen visible timeout) p).
Proof.
  intros Ht s. unfold runAction, bind. cbn. rewrite Ht. cbn.
  do 2 eexists. reflexivity.
Defined.

Lemma frozen_condition visible timeout p :
  until (loop p) = Some banner ->
  always_yields (evaluateCondition (frozen visible timeout) p) visible.
Proof.
  intros Hu s. unfold evaluateCondition. rewrite Hu. cbn.
  eexists. reflexivity.
Defined.

Lemma frozen_never_times_out visible w :
  never_times_out (frozen visible 5000) w.
Proof. intros w'. cbn. lia. Defined.

(** Three clicks asked for, three clicks made. *)
Lemma for_runs_exactly_k_witness :
  exists rep s,
    handle (frozen false 5000) 4 (for_params (Some 3) (button "click" None)) 0
    = (Ok rep, s) /\
    count_if interaction_called (trace s) = 3%nat /\
    map ev_iteration (evidence_of (summary rep)) = [1; 2; 3] /\
    status (summary rep) = "pass".
Proof.
  destruct (for_runs_exactly_k (frozen false 5000) 4
              (for_params (Some 3) (button "click" None)) 3 0)
    as (rep & s & Hh & Hc & _ & _ & Hn & _ & Hs).
  - reflexivity.
  - reflexivity.
  - lia.
  - apply frozen_action_succeeds. reflexivity.
  - cbn. lia.
  - exists rep, s. repeat split; assumption.
Defined.

(** The banner is up before the first click: [while] does not click,
    [do-while] clicks once. *)
Lemma condition_true_from_the_start_witness :
  (exists rep s,
     handle (frozen true 5000) 1
       (until_params "while" (Some banner) (button "click" None) None) 0
     = (Ok rep, s) /\
     count_if interaction_called (trace s) = 0%nat /\
     evidence_of (summary rep) = [] /\ status (summary rep) = "fail") /\
  (exists rep s,
     handle (frozen true 5000) 1
       (until_params "do-while" (Some banner) (button "click" None) None) 0
     = (Ok rep, s) /\
     count_if interaction_called (trace s) = 1%nat /\
     List.length (evidence_of (summary rep)) = 1%nat /\
     status (summary rep) = "pass").
Proof.
  split.
  - destruct (condition_true_from_the_start (frozen true 5000) 1
                (until_params "while" (Some banner) (button "click" None) None) 0)
      as (H & _).
    + lia.
    + apply (H eq_refl _ eq_refl).
  - destruct (condition_true_from_the_start (frozen true 5000) 1
                (until_params "do-while" (Some banner) (button "click" None) None) 0)
      as (_ & H & _).
    + lia.
    + destruct (H eq_refl _ _ eq_refl eq_refl) as (rep & s & Hh & Hc & He & Hs).
      exists rep, s. rewrite He. repeat split; assumption.
Defined.

(** C3, as stated, fails: the banner is hidden before any iteration, so the
    condition "to be hidden" evaluates to true then; the first click brings
    the banner up, and the [do-while] loop, which evaluates the condition
    only after that click, goes on to its cap of 20 records. *)
Lemma condition_true_before_do_while_goes_on :
  let tab := page 1 None 5000 in
  let u := {| until_element := "Done banner"; until_ref := "e2";
              assertion := {| assertionType := "toBeHidden" |}; negate := false |} in
  let p := until_params "do-while" (Some u) (button "click" None) None in
  fst (evaluateCondition tab p (initial tab (0, 0))) = Ok true /\
  exists rep s,
    handle tab 21 p (0, 0) = (Ok rep, s) /\
    List.length (evidence_of (summary rep)) = 20%nat /\
    List.length (evidence_of (summary rep)) <> 1%nat /\
    count_if interaction_called (trace s) = 20%nat.
Proof.
  cbv zeta. split; [reflexivity|].
  evaluate_run r s Hh.
  do 2 eexists. split; [reflexivity|]. split; [reflexivity|].
  split; [discriminate | reflexivity].
Qed.

(** C4, as stated, fails: a [do-while] loop capped at 0, with a condition
    that is never met and nothing failing, produces one record, not zero. *)
Lemma capped_at_zero_do_while_runs_once :
  let tab := frozen false 5000 in
  let p := until_params "do-while" (Some banner) (button "click" None) (Some 0) in
  maxIterations_of p = 0 /\
  always_yields (evaluateCondition tab p) false /\
  always_succeeds (runAction tab p) /\
  never_times_out tab 0 /\
  exists rep s,
    handle tab 5 p 0 = (Ok rep, s) /\
    List.length (evidence_of (summary rep)) = 1%nat /\
    List.length (evidence_of (summary rep)) <> Z.to_nat 0 /\
    count_if interaction_called (trace s) = 1%nat.
Proof.
  cbv zeta. split; [reflexivity|].
  split; [apply frozen_condition; reflexivity|].
  split; [apply frozen_action_succeeds; reflexivity|].
  split; [apply frozen_never_times_out|].
  do 2 eexists. split; [reflexivity|].
  split; [reflexivity|]. split; [discriminate | reflexivity].
Qed.

(** Capped at 3 and never stopped by the condition, on a page whose clock
    moves with every delay: three records, under both disciplines. *)
Lemma capped_loop_runs_witness :
  (exists rep s,
     handle (page 100 None 5000) 4
       (until_params "while" (Some banner) (button "click" None) (Some 3)) (0, 0)
     = (Ok rep, s) /\
     List.length (evidence_of (summary rep)) = 3%nat /\
     count_if interaction_called (trace s) = 3%nat) /\
  (exists rep s,
     handle (page 100 None 5000) 4
       (until_params "do-while" (Some banner) (button "click" None) (Some 3)) (0, 0)
     = (Ok rep, s) /\
     List.length (evidence_of (summary rep)) = 3%nat /\
     count_if interaction_called (trace s) = 3%nat).
Proof.
  split.
  - destruct (capped_loop_runs (page 100 None 5000) 4
                (until_params "while" (Some banner) (button "click" None) (Some 3)) 3
                (0, 0)) as (H & _).
    + reflexivity.
    + discriminate.
    + cbn. lia.
    + apply H; [reflexivity|]. check_cycles 3.
  - destruct (capped_loop_runs (page 100 None 5000) 4
                (until_params "do-while" (Some banner) (button "click" None) (Some 3)) 3
                (0, 0)) as (_ & H).
    + reflexivity.
    + discriminate.
    + cbn. lia.
    + apply H; [reflexivity|]. check_cycles 3.
Defined.


(** Three clicks until the banner shows: records 1, 2, 3. *)
Lemma evidence_is_numbered_witness :
  exists rep s,
    handle (page 3 None 5000) 21
      (until_params "while" (Some banner) (button "click" None) None) (0, 0)
    = (Ok rep, s) /\
    List.length (evidence_of (summary rep)) = 3%nat /\
    (forall i d, (i < 3)%nat ->
       ev_iteration (nth i (evidence_of (summary rep)) d) = Z.of_nat i + 1) /\
    count_if action_done (trace s) = 3%nat.
Proof.
  pose proof (evidence_is_numbered (page 3 None 5000) 21
                (until_params "while" (Some banner) (button "click" None) None) (0, 0))
    as H.
  evaluate_run r s Hh.
  destruct (H _ _ eq_refl) as (Hn & _ & Hd & _).
  do 2 eexists. split; [reflexivity|]. split; [reflexivity|].
  split; [exact Hn | symmetry; exact Hd].
Defined.

(** The button breaks after two clicks: the third click throws, the
    invocation throws with it, and two records had been made. *)
Lemma failure_aborts_witness :
  exists s,
    handle (page 100 (Some 2) 5000) 21
      (until_params "while" (Some banner) (button "click" None) None) (0, 0)
    = (Throw (Error "ActionError"), s) /\
    In (Ev CClick (Some (Error "ActionError"))) (trace s) /\
    iteration s = 2 /\
    List.length (evidence s) = 2%nat.
Proof.
  pose proof (failure_aborts (page 100 (Some 2) 5000) 21
                (until_params "while" (Some banner) (button "click" None) None) (0, 0))
    as H.
  evaluate_run r s Hh.
  eexists. split; [reflexivity|].
  match goal with
  | |- In ?e ?l /\ _ =>
      assert (Hin : In e l) by (cbn [trace]; do 13 right; left; reflexivity)
  end.
  destruct (H _ _ _ _ eq_refl Hin) as (Hr & _ & Hi & _).
  split; [exact Hin|]. split; [exact Hi | reflexivity].
Defined.

(** C6, as stated, fails: in a [do-while] loop the condition is located
    after the iteration is counted and recorded, so when that locate throws
    in the first cycle, the counter is at 1 and the record of the cycle is
    there. *)
Lemma condition_failure_after_the_record :
  let u := {| until_element := "Done banner"; until_ref := "gone";
              assertion := {| assertionType := "toBeVisible" |}; negate := false |} in
  exists s,
    handle (page 100 None 5000) 21
      (until_params "do-while" (Some u) (button "click" None) None) (0, 0)
    = (Throw (Error "NotFoundError"), s) /\
    trace s = [Ev (CRefLocator "e1" "Load more") None; Ev CClick None;
               Ev (CSleep 100) None;
               Ev (CRefLocator "gone" "Done banner") (Some (Error "NotFoundError"))] /\
    iteration s = 1 /\
    map ev_iteration (evidence s) = [1].
Proof.
  cbv zeta. evaluate_run r s Hh.
  eexists. split; [reflexivity|]. repeat split.
Qed.

(** A [for] spec without [iterations] and a [do-while] spec without [until]. *)
Lemma missing_field_rejected_witness :
  (exists s,
     handle (page 0 None 5000) 21 (for_params None (button "click" None)) (0, 0)
     = (Throw (Error missing_iterations), s) /\ trace s = []) /\
  (exists s,
     handle (page 0 None 5000) 21
       (until_params "do-while" None (button "click" None) None) (0, 0)
     = (Throw (Error (missing_until "do-while")), s) /\ trace s = []).
Proof.
  split.
  - destruct (missing_field_rejected (page 0 None 5000) 21
                (for_params None (button "click" None)) (0, 0))
      as (msg & s & Hh & Hm & Ht & _).
    + left. split; reflexivity.
    + exists s. rewrite Hh, Hm. split; [reflexivity | exact Ht].
  - destruct (missing_field_rejected (page 0 None 5000) 21
                (until_params "do-while" None (button "click" None) None) (0, 0))
      as (msg & s & Hh & Hm & Ht & _).
    + right. split; [right|]; reflexivity.
    + exists s. rewrite Hh, Hm. split; [reflexivity | exact Ht].
Defined.



(** A [do-while] loop capped at 0 whose condition is not met. *)
Lemma do_while_runs_at_least_once_witness :
  let tab := frozen false 5000 in
  let p := until_params "do-while" (Some banner) (button "click" None) (Some 0) in
  exists rep s,
    handle tab 1 p 0 = (Ok rep, s) /\
    evidence_of (summary rep) = [iteration_record "do-while" (action p) 1] /\
    (1 <= count_if action_done (trace s))%nat /\
    status (summary rep) = "pass".
Proof.
  cbv zeta.
  pose proof (fun s1 s2 => do_while_runs_at_least_once (frozen false 5000) 1
                (until_params "do-while" (Some banner) (button "click" None) (Some 0)) 0
                s1 false s2) as H.
  evaluate_run r s Hh.
  destruct (H _ _ _ _ eq_refl ltac:(discriminate) ltac:(lia) eq_refl eq_refl eq_refl)
    as (Hd & _ & _ & Hp & Hz).
  do 2 eexists. split; [reflexivity|].
  split; [reflexivity|]. split; [exact Hd | reflexivity].
Defined.

(** Capped at 1: the second cycle starts with the counter at the cap, and
    the loop does nothing from there. *)
Lemma while_guards_come_first_witness :
  let tab := frozen false 5000 in
  let p := until_params "while" (Some banner) (button "click" None) (Some 1) in
  let s := snd (whileBody tab p 0 (initial tab 0)) in
  iteration s = 1 /\
  cycle_start tab p 1 0 (initial tab 0) s /\
  elapsed tab 0 s <= 5000 /\
  forall fuel, snd (whileLoop tab p 1 0 fuel s) = s.
Proof.
  cbv zeta.
  assert (Hs : cycle_start (frozen false 5000)
                 (until_params "while" (Some banner) (button "click" None) (Some 1))
                 1 0 (initial (frozen false 5000) 0)
                 (snd (whileBody (frozen false 5000)
                         (until_params "while" (Some banner) (button "click" None) (Some 1))
                         0 (initial (frozen false 5000) 0)))).
  { eapply cycle_next; [apply cycle_first | reflexivity | reflexivity]. }
  split; [reflexivity|]. split; [exact Hs|].
  destruct (while_guards_come_first (frozen false 5000)
              (until_params "while" (Some banner) (button "click" None) (Some 1)) 0 _
              ltac:(cbn; lia) Hs) as (Ht & Hg).
  split; [exact Ht|]. apply Hg. left. cbn. lia.
Defined.

(* ------------------------------------------------------------------ *)
(** ** Further properties on a page *)

Arguments called {tab} s.

(** Two clicks under a [for] loop. *)
Lemma for_call_sequence_witness :
  exists rep s,
    handle (frozen false 5000) 3 (for_params (Some 2) (button "click" None)) 0
    = (Ok rep, s) /\
    trace s = [Ev (CRefLocator "e1" "Load more") None; Ev CClick None;
               Ev (CSleep 300) None;
               Ev (CRefLocator "e1" "Load more") None; Ev CClick None;
               Ev (CSleep 300) None].
Proof.
  pose proof (for_call_sequence (frozen false 5000) 3
                (for_params (Some 2) (button "click" None)) 0) as H.
  evaluate_run r s Hh.
  do 2 eexists. split; [reflexivity|].
  exact (H _ _ eq_refl eq_refl).
Defined.

(** One click until the banner shows, under a [while] loop. *)
Lemma while_call_sequence_witness :
  exists rep s,
    handle (page 1 None 5000) 21
      (until_params "while" (Some banner) (button "click" None) None) (0, 0)
    = (Ok rep, s) /\
    trace s = [Ev (CRefLocator "e2" "Done banner") None; Ev CIsVisible None;
               Ev (CRefLocator "e1" "Load more") None; Ev CClick None;
               Ev (CSleep 100) None;
               Ev (CRefLocator "e2" "Done banner") None; Ev CIsVisible None].
Proof.
  pose proof (while_call_sequence (page 1 None 5000) 21
                (until_params "while" (Some banner) (button "click" None) None) (0, 0))
    as H.
  evaluate_run r s Hh.
  destruct (H _ _ eq_refl eq_refl) as (tail & Ht & _).
  do 2 eexists. split; reflexivity.
Defined.

(** Two clicks until the banner shows, under a [do-while] loop. *)
Lemma do_while_call_sequence_witness :
  exists rep s,
    handle (page 2 None 5000) 21
      (until_params "do-while" (Some banner) (button "click" None) None) (0, 0)
    = (Ok rep, s) /\
    trace s = [Ev (CRefLocator "e1" "Load more") None; Ev CClick None;
               Ev (CSleep 100) None;
               Ev (CRefLocator "e2" "Done banner") None; Ev CIsVisible None;
               Ev (CRefLocator "e1" "Load more") None; Ev CClick None;
               Ev (CSleep 100) None;
               Ev (CRefLocator "e2" "Done banner") None; Ev CIsVisible None].
Proof.
  pose proof (do_while_call_sequence (page 2 None 5000) 21
                (until_params "do-while" (Some banner) (button "click" None) None) (0, 0))
    as H.
  evaluate_run r s Hh.
  destruct (H _ _ eq_refl eq_refl) as (Ht & _).
  do 2 eexists. split; [reflexivity | exact Ht].
Defined.

(** A button that breaks after one click, under a [while] loop capped at 3:
    two interactions were called, one record was made. *)
Lemma within_budget_witness :
  exists r s,
    handle (page 100 (Some 1) 5000) 21
      (until_params "while" (Some banner) (button "click" None) (Some 3)) (0, 0)
    = (r, s) /\
    called s = 2 /\ List.length (evidence s) = 1%nat /\ called s <= 3.
Proof.
  pose proof (within_budget (page 100 (Some 1) 5000) 21
                (until_params "while" (Some banner) (button "click" None) (Some 3))
                (0, 0)) as H.
  evaluate_run r s Hh.
  destruct (H _ _ eq_refl) as (Hc & _).
  do 2 eexists. split; [reflexivity|]. split; [reflexivity|].
  split; [reflexivity | exact Hc].
Defined.

(** Fifty units of fuel where twenty-one are needed. *)
Lemma handle_ends_witness :
  let tab := page 3 None 5000 in
  let p := until_params "while" (Some banner) (button "click" None) None in
  fst (handle tab 50 p (0, 0)) <> OutOfFuel /\
  handle tab 50 p (0, 0) = handle tab 21 p (0, 0).
Proof.
  cbv zeta.
  apply (handle_ends (page 3 None 5000) 50
           (until_params "while" (Some banner) (button "click" None) None) (0, 0)).
  cbn. lia.
Defined.

(** The banner is up: "visible" is met, "not visible" is not. *)
Lemma negate_flips_witness :
  let tab := frozen true 5000 in
  let p := until_params "while" (Some banner) (button "click" None) None in
  fst (evaluateCondition tab p (initial tab 0)) = Ok true /\
  evaluateCondition tab (negated p) (initial tab 0)
  = (Ok false, snd (evaluateCondition tab p (initial tab 0))).
Proof.
  cbv zeta. split; [reflexivity|].
  apply (negate_flips (frozen true 5000)
           (until_params "while" (Some banner) (button "click" None) None)
           (initial (frozen true 5000) 0)).
  discriminate.
Defined.



(** A timeout of 50 ms: the first iteration, with its 100 ms of delay, is
    the last. *)
Lemma timeout_ends_while_witness :
  let tab := page 100 None 50 in
  let p := until_params "while" (Some banner) (button "click" None) None in
  exists rep s,
    handle tab 21 p (0, 0) = (Ok rep, s) /\
    total (summary rep) = 1 /\ status (summary rep) = "pass".
Proof.
  cbv zeta.
  destruct (timeout_ends_while (page 100 None 50) 21
              (until_params "while" (Some banner) (button "click" None) None) (0, 0)
              (initial (page 100 None 50) (0, 0))
              (snd (evaluateCondition (page 100 None 50)
                      (until_params "while" (Some banner) (button "click" None) None)
                      (initial (page 100 None 50) (0, 0))))
              (snd (runAction (page 100 None 50)
                      (until_params "while" (Some banner) (button "click" None) None)
                      (snd (evaluateCondition (page 100 None 50)
                              (until_params "while" (Some banner) (button "click" None) None)
                              (initial (page 100 None 50) (0, 0)))))))
    as (rep & Hh & Ht & _ & Hs).
  - reflexivity.
  - discriminate.
  - apply cycle_first.
  - cbn. lia.
  - reflexivity.
  - reflexivity.
  - cbn. lia.
  - cbn. lia.
  - exists rep. eexists. split; [exact Hh|]. split; [exact Ht | exact Hs].
Defined.

(** The banner shows after one click: the second cycle finds the condition
    met and the loop stops with one record. *)
Lemma condition_ends_while_witness :
  let tab := page 1 None 5000 in
  let p := until_params "while" (Some banner) (button "click" None) None in
  exists rep s,
    handle tab 21 p (0, 0) = (Ok rep, s) /\
    total (summary rep) = 1 /\
    count_if interaction_called (trace s) = 1%nat.
Proof.
  cbv zeta.
  destruct (condition_ends_while (page 1 None 5000) 21
              (until_params "while" (Some banner) (button "click" None) None) (0, 0)
              (snd (whileBody (page 1 None 5000)
                      (until_params "while" (Some banner) (button "click" None) None) 0
                      (initial (page 1 None 5000) (0, 0))))
              (snd (evaluateCondition (page 1 None 5000)
                      (until_params "while" (Some banner) (button "click" None) None)
                      (snd (whileBody (page 1 None 5000)
                              (until_params "while" (Some banner) (button "click" None) None)
                              0 (initial (page 1 None 5000) (0, 0)))))))
    as (rep & Hh & Ht & _ & Hc).
  - reflexivity.
  - discriminate.
  - eapply cycle_next; [apply cycle_first | cbn; lia | reflexivity].
  - cbn. lia.
  - reflexivity.
  - cbn. lia.
  - exists rep. eexists. split; [exact Hh|]. split; [exact Ht | exact Hc].
Defined.

(** No [limits] at all, a banner that shows after a hundred clicks, and a
    clock that moves with every delay. *)
Lemma default_cap_is_20_witness :
  exists rep s,
    handle (page 100 None 5000) 21
      (until_params "while" (Some banner) (button "click" None) None) (0, 0)
    = (Ok rep, s) /\
    List.length (evidence_of (summary rep)) = 20%nat /\
    count_if interaction_called (trace s) = 20%nat.
Proof.
  apply (default_cap_is_20 (page 100 None 5000) 21
           (until_params "while" (Some banner) (button "click" None) None) (0, 0)).
  - left. reflexivity.
  - discriminate.
  - lia.
  - left. split; [reflexivity|]. check_cycles 20.
Defined.

(** The second record of a [for] loop that fills a field. *)
Lemma records_carry_the_action_witness :
  exists rep s,
    handle (frozen false 5000) 3 (for_params (Some 2) (button "fill" (Some "abc"))) 0
    = (Ok rep, s) /\
    report_action rep = button "fill" (Some "abc") /\
    ev_action (nth 1 (evidence_of (summary rep))
                 (iteration_record "" (button "fill" (Some "abc")) 0))
    = button "fill" (Some "abc") /\
    ev_message (nth 1 (evidence_of (summary rep))
                  (iteration_record "" (button "fill" (Some "abc")) 0))
    = "Performed for-loop iteration 2".
Proof.
  pose proof (records_carry_the_action (frozen false 5000) 3
                (for_params (Some 2) (button "fill" (Some "abc"))) 0) as H.
  evaluate_run r s Hh.
  destruct (H _ _ eq_refl) as (Ha & _ & Hrec).
  destruct (Hrec 1%nat (iteration_record "" (button "fill" (Some "abc")) 0))
    as (Hact & Hmsg).
  - cbn. lia.
  - do 2 eexists. split; [reflexivity|]. split; [exact Ha|].
    split; [exact Hact | exact Hmsg].
Defined.

(** A [while] loop capped at 0 in front of a banner that never shows. *)
Lemma no_cycle_no_call_witness :
  exists rep s,
    handle (page 100 None 5000) 1
      (until_params "while" (Some banner) (button "click" None) (Some 0)) (0, 0)
    = (Ok rep, s) /\
    trace s = [] /\ status (summary rep) = "fail".
Proof.
  destruct (no_cycle_no_call (page 100 None 5000) 1
              (until_params "while" (Some banner) (button "click" None) (Some 0)) (0, 0))
    as (rep & s & Hh & Ht & _ & _ & Hs).
  - lia.
  - right. split; [reflexivity|]. split; [discriminate | cbn; lia].
  - exists rep, s. split; [exact Hh|]. split; [exact Ht | exact Hs].
Defined.
